(** * JobSphere GraphQL backend: guards, request context and user resolvers

    A shallow embedding of

      - [src/graphql/guards.ts]    (requireAuth, requireRole, requireAnyRole,
                                    requireOwnership),
      - [src/graphql/context.ts]   (createContext),
      - [src/graphql/resolvers/userMutations.ts] and [userQueries.ts]
                                   (register, login, updateUser, deleteUser,
                                    users, user, me),
      - [src/db/schema.ts]         (the [users] table),

    followed by the properties of the token and authorization core.

    Conventions.  A JavaScript string is a [string]: a sequence of code units
    below 256.  A row key is an [int4], an integer of the 32-bit range of the
    [integer] column; the JavaScript number that [parseInt] returns is a
    [Js.Number].  A thrown exception is the [Throw] outcome of the resolver
    monad [M]; the table is threaded through it explicitly.  A timestamp is
    a [Z]. *)

From stdpp Require Import gmap strings list pretty.
From Stdlib Require Import ZArith Ascii String.

Local Open Scope Z_scope.

#[local] Set Warnings "-clear-no-such-hyp".

(** ** Keys of the 32-bit [integer] column *)

Definition int4_range (n : Z) : Prop := -2147483648 ≤ n ≤ 2147483647.

Record int4 : Type := mkInt4 {
  int4_val :> Z;
  int4_ok : bool_decide (int4_range int4_val)
}.

#[global] Instance int4_eq_dec : EqDecision int4.
Proof.
  intros [a Ha] [b Hb]. destruct (decide (a = b)) as [Heq|Hne].
  - left. subst b. f_equal. apply proof_irrel.
  - right. intros [= Heq]. by apply Hne.
Defined.

(** The key with value [n], when [n] is in the range. *)
Definition to_int4 (n : Z) : option int4 :=
  (if bool_decide (int4_range n) as b return (Is_true b → int4) → option int4
   then λ k, Some (k I)
   else λ _, None) (mkInt4 n).

(** ** JavaScript strings and numbers *)

Module Js.

(** [String.prototype.startsWith]. *)
Definition startsWith (p s : string) : bool := String.prefix p s.

(** [String.prototype.substring(n)]: the code units from index [n] on. *)
Fixpoint substring (n : nat) (s : string) : string :=
  match n, s with
  | O, _ => s
  | S n', String _ s' => substring n' s'
  | S _, EmptyString => EmptyString
  end.

(** Lower-casing of one code unit below 256: [A]-[Z] and the Latin-1
    capitals U+00C0..U+00DE (U+00D7, the multiplication sign, apart). *)
Definition lower_unit (c : ascii) : ascii :=
  let n := N_of_ascii c in
  if ((65 <=? n) && (n <=? 90))%N then ascii_of_N (n + 32)
  else if ((192 <=? n) && (n <=? 222) && negb (n =? 215))%N
       then ascii_of_N (n + 32)
  else c.

(** [String.prototype.toLowerCase]. *)
Fixpoint toLowerCase (s : string) : string :=
  match s with
  | EmptyString => EmptyString
  | String c s' => String (lower_unit c) (toLowerCase s')
  end.

(** White space skipped by [parseInt], among the code units below 256. *)
Definition is_space (c : ascii) : bool :=
  let n := N_of_ascii c in
  ((9 <=? n) && (n <=? 13) || (n =? 32) || (n =? 160))%N.

Definition digit (c : ascii) : option Z :=
  let n := N_of_ascii c in
  if ((48 <=? n) && (n <=? 57))%N then Some (Z.of_N n - 48) else None.

Fixpoint skip_space (s : string) : string :=
  match s with
  | String c s' => if is_space c then skip_space s' else s
  | EmptyString => EmptyString
  end.

(** The longest prefix of decimal digits, accumulated left to right;
    [None] when there is no digit at all. *)
Fixpoint digits (acc : option Z) (s : string) : option Z :=
  match s with
  | String c s' =>
      match digit c with
      | Some d => digits (Some (10 * default 0 acc + d)) s'
      | None => acc
      end
  | EmptyString => acc
  end.

(** The numbers [parseInt] can return: [NaN], an integer below 2^53 in
    magnitude, which JavaScript holds exactly, or a number of magnitude 2^53
    or more (infinity included), whose value, rounded by JavaScript, is not
    modelled. *)
Inductive Number : Type :=
  | NaN
  | Int (n : Z)
  | Big.

Definition number_of (n : Z) : Number :=
  if Z.abs n <? 9007199254740992 then Int n else Big.

(** [Number.parseInt(s, 10)]. *)
Definition parseInt (s : string) : Number :=
  match skip_space s with
  | String "-"%char s' => from_option (λ n, number_of (- n)) NaN (digits None s')
  | String "+"%char s' => from_option number_of NaN (digits None s')
  | s' => from_option number_of NaN (digits None s')
  end.

(** [Number.prototype.toString] on a key: its decimal digits, after a minus
    sign when it is negative. *)
Definition toString (n : int4) : string := pretty (int4_val n).

End Js.

(** ** Errors and the resolver monad *)

(** What a resolver can throw: a [GraphQLError] with its message and the
    [extensions.code] when one is given, a plain [Error], or whatever the
    database driver raises. *)
Inductive Error : Type :=
  | GraphQLError (message : string) (code : option string)
  | JsError (message : string)
  | DriverError.

Inductive Result (A : Type) : Type :=
  | Ok (a : A)
  | Throw (e : Error).
Arguments Ok {A} a.
Arguments Throw {A} e.

(** ** The [users] table ([src/db/schema.ts]) *)

Record User : Type := mkUser {
  id : int4;
  email : string;
  password : string;
  name : string;
  role : string;
  phone : option string;
  isSuspend : bool;
  refreshTokens : option (list string);
  passwordResetOTP : option string;
  otpExpiry : option Z;
  createdAt : Z;
  updatedAt : Z
}.

(** The table together with the identity sequence behind
    [generatedAlwaysAsIdentity]. *)
Record Database : Type := mkDatabase {
  rows : list User;
  next_id : Z
}.

(** The primary key and the [unique] constraint on [email]. *)
Definition wf_db (db : Database) : Prop :=
  NoDup (id <$> rows db) ∧ NoDup (email <$> rows db) ∧
  Forall (λ u, id u < next_id db) (rows db).

(** The clock and the randomness a request reads. *)
Record Env : Type := mkEnv {
  now : Z;
  entropy : Z
}.

(** Resolvers run against the table and either return or throw. *)
Definition M (A : Type) : Type := Database → Result A * Database.

Definition ret {A} (a : A) : M A := λ db, (Ok a, db).
Definition throw {A} (e : Error) : M A := λ db, (Throw e, db).
Definition bind {A B} (m : M A) (k : A → M B) : M B :=
  λ db, match m db with
        | (Ok a, db') => k a db'
        | (Throw e, db') => (Throw e, db')
        end.
Definition lift {A} (r : Result A) : M A := λ db, (r, db).

Notation "'let*' x ':=' m 'in' k" := (bind m (λ x, k))
  (at level 10, x pattern, m at level 100, k at level 200).
Notation "'run*' m 'in' k" := (bind m (λ _, k))
  (at level 10, m at level 100, k at level 200).

(** ** Values returned to the client *)

Inductive Value : Type :=
  | VNull
  | VBool (b : bool)
  | VNum (n : Z)
  | VStr (s : string)
  | VDate (t : Z)
  | VStrings (l : list string).

Definition of_option {A} (f : A → Value) (o : option A) : Value :=
  match o with Some a => f a | None => VNull end.

(** A row as the JavaScript object the driver hands back: one key per
    column. *)
Definition row_object (u : User) : gmap string Value :=
  <["id" := VNum (id u)]>
  (<["email" := VStr (email u)]>
  (<["password" := VStr (password u)]>
  (<["name" := VStr (name u)]>
  (<["role" := VStr (role u)]>
  (<["phone" := of_option VStr (phone u)]>
  (<["isSuspend" := VBool (isSuspend u)]>
  (<["refreshTokens" := of_option VStrings (refreshTokens u)]>
  (<["passwordResetOTP" := of_option VStr (passwordResetOTP u)]>
  (<["otpExpiry" := of_option VDate (otpExpiry u)]>
  (<["createdAt" := VDate (createdAt u)]>
  (<["updatedAt" := VDate (updatedAt u)]> ∅))))))))))).

(** [const { password, ...rest } = row]: the rest object. *)
Definition without_password (u : User) : gmap string Value :=
  delete "password" (row_object u).

(** ** What the embedding takes as given *)

(** The decoded claims of an access token, which are also the [user] of a
    request context and the payload that is signed at login. *)
Module Auth.
Record user : Type := mk {
  userId : string;
  email : string;
  role : string
}.
End Auth.

(** [@/lib/jwt] is imported by the resolvers and by the context builder;
    its functions are the fields of this interface.  Signing and hashing read
    the clock and the randomness of the request; [verifyAccessToken] throws on
    a bad token, which is the [Throw] outcome here. *)
Class JwtLib : Type := {
  hashPassword : string → Env → string;
  comparePassword : string → string → bool;
  signAccessToken : Auth.user → Env → string;
  signRefreshToken : Auth.user → Env → string * string;
  verifyAccessToken : string → Env → Result Auth.user
}.

(** Two points of the driver's behaviour are decided outside the repository:
    whether a statement whose key parameter is [NaN] is refused or matches no
    row, and whether an update that touches no row still refuses a value
    wider than its column. *)
Class Driver : Type := {
  NaN_rejected : bool;
  eager_checks : bool
}.

(** ** The statements the resolvers issue *)

Definition set_refreshTokens (v : option (list string)) (u : User) : User :=
  mkUser (id u) (email u) (password u) (name u) (role u) (phone u)
         (isSuspend u) v (passwordResetOTP u) (otpExpiry u)
         (createdAt u) (updatedAt u).

Definition set_updatedAt (t : Z) (u : User) : User :=
  mkUser (id u) (email u) (password u) (name u) (role u) (phone u)
         (isSuspend u) (refreshTokens u) (passwordResetOTP u) (otpExpiry u)
         (createdAt u) t.

(** [userRoleEnum] of the schema. *)
Definition userRoleEnum : list string := ["customer"; "contractor"; "admin"].

(** [varchar({ length: n })]: a string of at most [n] characters. *)
Definition varchar (n : nat) (s : string) : bool :=
  bool_decide (String.length s ≤ n)%nat.

(** The object given to [set]: for each column the resolvers assign, the new
    value when the object has the key ([Some None] being [null]). *)
Record Assignment : Type := mkAssignment {
  new_name : option (option string);
  new_phone : option (option string);
  new_refreshTokens : option (list string);
  new_updatedAt : option Z
}.

(** Every assigned string is within the width of its column. *)
Definition fits (a : Assignment) : bool :=
  match new_name a with Some (Some n) => varchar 255 n | _ => true end
  && match new_phone a with Some (Some p) => varchar 50 p | _ => true end.

(** [name] is [notNull()]. *)
Definition null_name (a : Assignment) : bool :=
  match new_name a with Some None => true | _ => false end.

(** The row after the assignment at time [t]: [updatedAt] takes the assigned
    value, and the value of its [$onUpdate] when none is assigned. *)
Definition assign (a : Assignment) (t : Z) (u : User) : User :=
  mkUser (id u) (email u) (password u)
         (match new_name a with Some (Some n) => n | _ => name u end)
         (role u)
         (match new_phone a with Some p => p | None => phone u end)
         (isSuspend u)
         (match new_refreshTokens a with
          | Some l => Some l
          | None => refreshTokens u
          end)
         (passwordResetOTP u) (otpExpiry u) (createdAt u)
         (default t (new_updatedAt a)).

Module Db.
Section Statements.
Context {drv : Driver}.

(** [eq(usersTable.id, x)] as a row predicate. *)
Definition eq_id (x : Js.Number) (u : User) : bool :=
  match x with
  | Js.Int n => bool_decide (int4_val (id u) = n)
  | _ => false
  end.

(** The key parameter of a statement: a number outside the range of the
    column is refused. *)
Definition key_param (x : Js.Number) : M unit :=
  match x with
  | Js.Int n =>
      if bool_decide (int4_range n) then ret tt else throw DriverError
  | Js.Big => throw DriverError
  | Js.NaN => if NaN_rejected then throw DriverError else ret tt
  end.

(** [db.select().from(usersTable)] *)
Definition select_all : M (list User) :=
  λ db, (Ok (rows db), db).

(** [db.select().from(usersTable).where(eq(usersTable.email, e))] *)
Definition select_by_email (e : string) : M (list User) :=
  λ db, (Ok (filter (λ u, email u = e) (rows db)), db).

(** [db.select().from(usersTable).where(eq(usersTable.id, x))] *)
Definition select_by_id (x : Js.Number) : M (list User) :=
  run* key_param x in
  λ db, (Ok (filter (λ u, eq_id x u = true) (rows db)), db).

(** [db.insert(usersTable).values({email, password, name, role, phone})]:
    the key comes from the identity sequence, the other columns take their
    defaults.  The row is refused when a string is wider than its column,
    the role is outside the enum, the email is taken, or the sequence has
    left the range of the key. *)
Definition insert (e pw n r : string) (ph : option string) (t : Z)
  : M unit :=
  λ db,
    if varchar 255 e && varchar 255 pw && varchar 255 n
       && from_option (varchar 50) true ph
       && bool_decide (r ∈ userRoleEnum)
       && negb (bool_decide (e ∈ email <$> rows db))
    then match to_int4 (next_id db) with
         | Some k =>
             (Ok tt,
              mkDatabase
                (rows db ++ [mkUser k e pw n r ph false (Some [])
                                    None None t t])
                (next_id db + 1))
         | None => (Throw DriverError, db)
         end
    else (Throw DriverError, db).

(** [db.update(usersTable).set(a).where(eq(usersTable.id, x))] at time [t].
    A value wider than its column is refused when a row is touched (and
    when none is, if the driver checks eagerly); [null] for [name] is
    refused when a row is touched. *)
Definition update_by_id (x : Js.Number) (a : Assignment) (t : Z) : M unit :=
  run* key_param x in
  λ db,
    let touched := existsb (eq_id x) (rows db) in
    if negb (fits a) && (eager_checks || touched)
    then (Throw DriverError, db)
    else if null_name a && touched then (Throw DriverError, db)
    else (Ok tt,
          mkDatabase ((λ u, if eq_id x u then assign a t u else u) <$> rows db)
                     (next_id db)).

(** [db.delete(usersTable).where(eq(usersTable.id, x))] *)
Definition delete_by_id (x : Js.Number) : M unit :=
  run* key_param x in
  λ db, (Ok tt,
         mkDatabase (filter (λ u, eq_id x u = false) (rows db))
                    (next_id db)).

End Statements.
End Db.

(** ** [src/graphql/context.ts] *)

Record GraphQLContext : Type := mkContext {
  user : option Auth.user
}.

Definition try_catch {A} (body : Result A) (handler : Error → Result A)
  : Result A :=
  match body with
  | Ok a => Ok a
  | Throw e => handler e
  end.

Definition rbind {A B} (r : Result A) (k : A → Result B) : Result B :=
  match r with
  | Ok a => k a
  | Throw e => Throw e
  end.

Section ContextBuilder.
Context {lib : JwtLib}.

(** [createContext(req)], on [req.headers.authorization]. *)
Definition createContext (authorization : option string) (env : Env)
  : Result GraphQLContext :=
  match authorization with
  | Some authHeader =>
      if Js.startsWith "Bearer " authHeader then
        let token := Js.substring 7 authHeader in
        try_catch
          (rbind (verifyAccessToken token env) (λ decoded,
             Ok (mkContext
                   (Some (Auth.mk (Auth.userId decoded)
                                  (Auth.email decoded)
                                  (Auth.role decoded))))))
          (λ _, Ok (mkContext None))
      else Ok (mkContext None)
  | None => Ok (mkContext None)
  end.

End ContextBuilder.

(** ** [src/graphql/guards.ts] *)

Definition UNAUTHENTICATED : Error :=
  GraphQLError "Unauthorized - Authentication required"
               (Some "UNAUTHENTICATED").

Definition requireAuth (context : GraphQLContext) : Result Auth.user :=
  match user context with
  | None => Throw UNAUTHENTICATED
  | Some u => Ok u
  end.

Definition requireRole (context : GraphQLContext) (role : string)
  : Result Auth.user :=
  rbind (requireAuth context) (λ user,
    if bool_decide (Auth.role user ≠ role)
    then Throw (GraphQLError ("Forbidden - " +:+ role +:+ " access required")
                             (Some "FORBIDDEN"))
    else Ok user).

Definition requireAnyRole (context : GraphQLContext) (roles : list string)
  : Result Auth.user :=
  rbind (requireAuth context) (λ user,
    if negb (bool_decide (Auth.role user ∈ roles))
    then Throw (GraphQLError "Forbidden - Insufficient permissions"
                             (Some "FORBIDDEN"))
    else Ok user).

Definition OWN_RESOURCES : Error :=
  GraphQLError "Forbidden - You can only access your own resources"
               (Some "FORBIDDEN").

Definition requireOwnership (context : GraphQLContext)
  (resourceUserId : string) : Result Auth.user :=
  rbind (requireAuth context) (λ user,
    if bool_decide (Auth.userId user ≠ resourceUserId)
       && bool_decide (Auth.role user ≠ "admin")
    then Throw OWN_RESOURCES
    else Ok user).

(** ** The GraphQL types of the resolvers' arguments and results *)

(** [enum UserRole] of the type definitions; a value reaches the resolver as
    the string of its name. *)
Inductive UserRole : Type := CUSTOMER | CONTRACTOR | ADMIN.

Definition UserRole_name (r : UserRole) : string :=
  match r with
  | CUSTOMER => "CUSTOMER"
  | CONTRACTOR => "CONTRACTOR"
  | ADMIN => "ADMIN"
  end.

Module RegisterInput.
Record t : Type := mk {
  email : string;
  password : string;
  name : string;
  role : UserRole;
  phone : option string
}.
End RegisterInput.

Module LoginInput.
Record t : Type := mk {
  email : string;
  password : string
}.
End LoginInput.

(** [input UpdateUserInput { name: String  phone: String }]: each field may
    be left out ([None]), be [null] ([Some None]) or carry a string. *)
Module UpdateUserInput.
Record t : Type := mk {
  name : option (option string);
  phone : option (option string)
}.
End UpdateUserInput.

Record SuccessResponse : Type := mkSuccess {
  success : bool;
  message : string
}.

Module AuthPayload.
Record t : Type := mk {
  accessToken : string;
  refreshToken : string;
  user : gmap string Value
}.
End AuthPayload.

(** ** [src/graphql/resolvers/userMutations.ts] *)

Definition EMAIL_EXISTS : Error :=
  GraphQLError "User with this email already exists" (Some "BAD_USER_INPUT").

Definition INVALID_LOGIN : Error :=
  GraphQLError "Invalid email or password" (Some "BAD_USER_INPUT").

Definition SUSPENDED : Error :=
  GraphQLError "Account is suspended" (Some "FORBIDDEN").

Module userMutations.
Section Resolvers.
Context {lib : JwtLib} {drv : Driver}.

Definition register (input : RegisterInput.t) (_context : GraphQLContext)
  (env : Env) : M SuccessResponse :=
  let* existingUsers := Db.select_by_email (RegisterInput.email input) in
  if (0 <? List.length existingUsers)%nat then throw EMAIL_EXISTS
  else
    let hashedPassword := hashPassword (RegisterInput.password input) env in
    run* Db.insert (RegisterInput.email input)
                   hashedPassword
                   (RegisterInput.name input)
                   (Js.toLowerCase (UserRole_name (RegisterInput.role input)))
                   (RegisterInput.phone input)
                   (now env) in
    ret (mkSuccess true "User registered successfully").

(** The object of login's [set]: the token list alone. *)
Definition store_token (tokens : list string) : Assignment :=
  mkAssignment None None (Some tokens) None.

Definition login (input : LoginInput.t) (_context : GraphQLContext)
  (env : Env) : M AuthPayload.t :=
  let* users := Db.select_by_email (LoginInput.email input) in
  match users with
  | [] => throw INVALID_LOGIN
  | user :: _ =>
      if isSuspend user then throw SUSPENDED
      else if negb (comparePassword (LoginInput.password input)
                                    (password user))
      then throw INVALID_LOGIN
      else
        let payload :=
          Auth.mk (Js.toString (id user)) (email user) (role user) in
        let accessToken := signAccessToken payload env in
        let '(refreshToken, jti) := signRefreshToken payload env in
        let currentTokens := default [] (refreshTokens user) in
        run* Db.update_by_id (Js.Int (id user))
               (store_token (currentTokens ++ [jti])) (now env) in
        ret (AuthPayload.mk accessToken refreshToken
                            (without_password user))
  end.

(** The object of updateUser's [set]: the fields of the input, and
    [updatedAt]. *)
Definition apply_input (input : UpdateUserInput.t) (t : Z) : Assignment :=
  mkAssignment (UpdateUserInput.name input) (UpdateUserInput.phone input)
               None (Some t).

Definition updateUser (id : string) (input : UpdateUserInput.t)
  (context : GraphQLContext) (env : Env) : M (gmap string Value) :=
  let userId := Js.parseInt id in
  run* lift (requireOwnership context id) in
  run* Db.update_by_id userId (apply_input input (now env)) (now env) in
  let* users := Db.select_by_id userId in
  match users with
  | [] => throw (GraphQLError "User not found" None)
  | u :: _ => ret (without_password u)
  end.

Definition deleteUser (id : string) (context : GraphQLContext)
  : M SuccessResponse :=
  let userId := Js.parseInt id in
  run* lift (requireOwnership context id) in
  run* Db.delete_by_id userId in
  ret (mkSuccess true "User deleted successfully").

End Resolvers.
End userMutations.

(** ** [src/graphql/resolvers/userQueries.ts] *)

Module userQueries.
Section Resolvers.
Context {drv : Driver}.

Definition users (context : GraphQLContext) : M (list (gmap string Value)) :=
  run* lift (requireAuth context) in
  let* users := Db.select_all in
  ret (without_password <$> users).

(** [None] is the [null] result. *)
Definition user (id : string) (_context : GraphQLContext)
  : M (option (gmap string Value)) :=
  let userId := Js.parseInt id in
  let* users := Db.select_by_id userId in
  match users with
  | [] => ret None
  | u :: _ => ret (Some (without_password u))
  end.

Definition me (context : GraphQLContext) : M (gmap string Value) :=
  let* currentUser := lift (requireAuth context) in
  let userId := Js.parseInt (Auth.userId currentUser) in
  let* users := Db.select_by_id userId in
  match users with
  | [] => throw (JsError "User not found")
  | u :: _ => ret (without_password u)
  end.

End Resolvers.
End userQueries.

(** ** The token service and the session store of the specification

    [@/lib/jwt] is not among the sources, and the repository has no refresh
    or logout resolver; the definitions of this part follow the
    specification's component design. *)

Module TokenService.

(** Modelled from the spec: the role of an identity, "a tagged variant
    with exactly the three values". *)
Inductive Role : Type := customer | contractor | admin.

(** Modelled from the spec: [Identity], the decoded claims of a token. *)
Record Identity : Type := mkIdentity {
  subject : string;
  email : string;
  role : Role
}.

(** Modelled from the spec: the configuration passed to the token service,
    with the fields [accessSecret], [refreshSecret], [accessLifetime] and
    [refreshLifetime]. *)
Record Config : Type := mkConfig {
  accessSecret : string;
  refreshSecret : string;
  accessLifetime : Z;
  refreshLifetime : Z
}.

(** Modelled from the spec: the signed content of a token, [subject],
    [email], [role], issued-at, expires-at and, for a refresh token only,
    the identifier [jti]. *)
Record Claims : Type := mkClaims {
  identity : Identity;
  jti : option string;
  iat : Z;
  exp : Z
}.

(** Modelled from the spec: the token wire format, "a compact signed
    structure": the claims and their signature. *)
Record Token : Type := mkToken {
  claims : Claims;
  signature : string
}.

(** Modelled from the spec: the one error kind of token verification. *)
Inductive TokenError : Type := InvalidToken.

Section Signing.
(** The keyed signature primitive. *)
Variable sign : string → Claims → string.

(** Modelled from the spec: [issueAccessToken(identity)], a signed token
    with [exp = now + accessLifetime]. *)
Definition issueAccessToken (cfg : Config) (now : Z) (i : Identity)
  : Token :=
  let c := mkClaims i None now (now + accessLifetime cfg) in
  mkToken c (sign (accessSecret cfg) c).

(** Modelled from the spec: [verifyAccessToken(token)], which checks the
    signature against the access-signing secret and checks [exp > now],
    and fails with [InvalidToken] otherwise. *)
Definition verifyAccessToken (cfg : Config) (now : Z) (t : Token)
  : Identity + TokenError :=
  if bool_decide (signature t = sign (accessSecret cfg) (claims t))
     && bool_decide (now < exp (claims t))
  then inl (identity (claims t))
  else inr InvalidToken.

(** Modelled from the spec: [issueRefreshToken(identity)], which signs
    the identity with the identifier [j] and
    [exp = now + refreshLifetime], and returns the token and [j]. *)
Definition issueRefreshToken (cfg : Config) (now : Z) (i : Identity)
  (j : string) : Token * string :=
  let c := mkClaims i (Some j) now (now + refreshLifetime cfg) in
  (mkToken c (sign (refreshSecret cfg) c), j).

(** Modelled from the spec: [verifyRefreshToken(token)], the same check
    against the refresh-signing secret, returning the embedded [jti]. *)
Definition verifyRefreshToken (cfg : Config) (now : Z) (t : Token)
  : (Identity * string) + TokenError :=
  if bool_decide (signature t = sign (refreshSecret cfg) (claims t))
     && bool_decide (now < exp (claims t))
  then match jti (claims t) with
       | Some j => inl (identity (claims t), j)
       | None => inr InvalidToken
       end
  else inr InvalidToken.
End Signing.

End TokenService.

Module SessionStore.
Import TokenService.

(** Modelled from the spec: the session store, the current-token-set of
    every user, together with the identifiers issued so far, from which
    [issueRefreshToken] draws "a fresh random unique identifier". *)
Record Store : Type := mkStore {
  sessions : gmap string (gset string);
  issued : gset string
}.

Definition current (userId : string) (s : Store) : gset string :=
  default ∅ (sessions s !! userId).

(** Modelled from the spec: [recordSession(userId, jti)] "appends [jti] to
    the user's current-token-set". *)
Definition recordSession (userId j : string) (s : Store) : Store :=
  mkStore (<[userId := {[j]} ∪ current userId s]> (sessions s))
          ({[j]} ∪ issued s).

(** Modelled from the spec: [isActive(userId, jti)], "membership check". *)
Definition isActive (userId j : string) (s : Store) : bool :=
  bool_decide (j ∈ current userId s).

(** Modelled from the spec: [rotate(userId, oldJti, newJti)], which
    "removes [oldJti] and adds [newJti]". *)
Definition rotate (userId old new : string) (s : Store) : Store :=
  mkStore (<[userId := {[new]} ∪ (current userId s ∖ {[old]})]> (sessions s))
          ({[new]} ∪ issued s).

(** Modelled from the spec: [revoke(userId, jti)], which "removes a single
    identifier". *)
Definition revoke (userId j : string) (s : Store) : Store :=
  mkStore (<[userId := current userId s ∖ {[j]}]> (sessions s)) (issued s).

(** Modelled from the spec: [revokeAll(userId)], which "clears the entire
    set". *)
Definition revokeAll (userId : string) (s : Store) : Store :=
  mkStore (<[userId := ∅]> (sessions s)) (issued s).

Section Operations.
Variable sign : string → Claims → string.
(** The source of refresh-token identifiers, given those issued so far. *)
Variable new_jti : gset string → string.
Variable cfg : Config.

(** Modelled from the spec: the session side of [login], once the
    credentials are accepted: a refresh token is issued and its
    identifier recorded. *)
Definition login (now : Z) (i : Identity) (s : Store) : Token * Store :=
  let '(t, j) := issueRefreshToken sign cfg now i (new_jti (issued s)) in
  (t, recordSession (subject i) j s).

(** Modelled from the spec: [refresh(refreshToken)]: the token is
    verified, the store "confirms the embedded identifier is still
    current, a new pair is issued, and the old identifier is replaced";
    every failure is [InvalidToken]. *)
Definition refresh (now : Z) (t : Token) (s : Store)
  : ((Token * Token) + TokenError) * Store :=
  match verifyRefreshToken sign cfg now t with
  | inl (i, j) =>
      if isActive (subject i) j s then
        let access := issueAccessToken sign cfg now i in
        let '(t', j') :=
          issueRefreshToken sign cfg now i (new_jti (issued s)) in
        (inl (access, t'), rotate (subject i) j j' s)
      else (inr InvalidToken, s)
  | inr e => (inr e, s)
  end.

(** Modelled from the spec: [logout(refreshToken)], which revokes the
    identifier of a verified token and fails with [InvalidToken]
    otherwise. *)
Definition logout (now : Z) (t : Token) (s : Store)
  : (unit + TokenError) * Store :=
  match verifyRefreshToken sign cfg now t with
  | inl (i, j) => (inl tt, revoke (subject i) j s)
  | inr e => (inr e, s)
  end.

(** The operations that touch the store, each at its time. *)
Inductive Op : Type :=
  | Login (now : Z) (i : Identity)
  | Refresh (now : Z) (t : Token)
  | Logout (now : Z) (t : Token)
  | RevokeAll (userId : string).

Definition step (s : Store) (o : Op) : Store :=
  match o with
  | Login now i => snd (login now i s)
  | Refresh now t => snd (refresh now t s)
  | Logout now t => snd (logout now t s)
  | RevokeAll u => revokeAll u s
  end.

Definition run (ops : list Op) (s : Store) : Store :=
  foldl step s ops.

(** Every identifier of a current-token-set was issued. *)
Definition consistent (s : Store) : Prop :=
  ∀ u j, j ∈ current u s → j ∈ issued s.

End Operations.

Definition empty : Store := mkStore ∅ ∅.

(** [j] was issued and is not in the current-token-set of [u]. *)
Definition removed (u j : string) (s : Store) : Prop :=
  j ∈ issued s ∧ j ∉ current u s.

End SessionStore.

(** A sample run of the session store: the signature of a claim set is the
    secret itself, and identifiers are drawn with [fresh]. *)
Module SessionSample.
Import TokenService SessionStore.

Definition sign (secret : string) (_ : Claims) : string := secret.
Definition new_jti (X : gset string) : string := fresh X.
Definition cfg : Config := mkConfig "access-key" "refresh-key" 900 86400.
Definition carol : Identity := mkIdentity "7" "carol@example.com" customer.

(** Carol logs in at time 0, which gives her a refresh token. *)
Definition token : Token := (login sign new_jti cfg 0 carol empty).1.
Definition store0 : Store := (login sign new_jti cfg 0 carol empty).2.

(** She exchanges the token at time 10. *)
Definition store1 : Store := (refresh sign new_jti cfg 10 token store0).2.

(** Later she logs in again, and the old token is presented once more. *)
Definition later : list (Op) := [Login 20 carol; Refresh 30 token].

End SessionSample.

(** ** Vocabulary of the statements about [login] *)

(** The row with [jti] appended to its token list, a missing list counting
    as empty, and nothing else changed. *)
Definition append_token (jti : string) (u : User) : User :=
  set_refreshTokens (Some (default [] (refreshTokens u) ++ [jti])) u.

(** [u'] agrees with [u] on every column but [refreshTokens] and
    [updatedAt]. *)
Definition same_account (u u' : User) : Prop :=
  id u' = id u ∧ email u' = email u ∧ password u' = password u ∧
  name u' = name u ∧ role u' = role u ∧ phone u' = phone u ∧
  isSuspend u' = isSuspend u ∧
  passwordResetOTP u' = passwordResetOTP u ∧ otpExpiry u' = otpExpiry u ∧
  createdAt u' = createdAt u.

(** The payload [login] signs for a row. *)
Definition payload_of (u : User) : Auth.user :=
  Auth.mk (Js.toString (id u)) (email u) (role u).

(** ** Vocabulary of the statements about results *)

(** [o] is a row of the table without its password field. *)
Definition public_record (db : Database) (o : gmap string Value) : Prop :=
  ∃ u, u ∈ rows db ∧ o = without_password u.

(** ** A sample library and sample tables, on which the statements are run *)

Module Sample.

(** A transparent stand-in for [@/lib/jwt]: the digest of [p] is [p]
    behind a marker, and the one access token that verifies is
    ["t-alice"]. *)
#[local] Instance jwt : JwtLib := {|
  hashPassword p _ := "$" +:+ p;
  comparePassword p h := bool_decide (h = "$" +:+ p);
  signAccessToken payload _ := "access:" +:+ Auth.userId payload;
  signRefreshToken payload env :=
    ("refresh:" +:+ Auth.userId payload +:+ ":" +:+ pretty (entropy env),
     "jti-" +:+ pretty (entropy env));
  verifyAccessToken token _ :=
    if bool_decide (token = "t-alice")
    then Ok (Auth.mk "1" "alice@example.com" "customer")
    else Throw (JsError "jwt malformed")
|}.

#[local] Instance driver : Driver :=
  {| NaN_rejected := true; eager_checks := true |}.

Definition key1 : int4 := mkInt4 1 I.
Definition key2 : int4 := mkInt4 2 I.

Definition alice : User :=
  mkUser key1 "alice@example.com" "$wonderland" "Alice" "customer" None
         false (Some ["jti-0"]) None None 100 100.

(** A suspended account. *)
Definition bob : User :=
  mkUser key2 "bob@example.com" "$builder" "Bob" "contractor" (Some "555")
         true (Some []) None None 110 120.

Definition db : Database := mkDatabase [alice; bob] 3.

Definition env : Env := mkEnv 200 7.

Definition anonymous : GraphQLContext := mkContext None.

(** Alice's row, and the table, after she logs in at [env]. *)
Definition alice_after : User :=
  mkUser key1 "alice@example.com" "$wonderland" "Alice" "customer" None
         false (Some ["jti-0"; "jti-7"]) None None 100 200.

Definition db_after : Database := mkDatabase [alice_after; bob] 3.

Definition alice_login : LoginInput.t :=
  LoginInput.mk "alice@example.com" "wonderland".

Definition alice_session : AuthPayload.t :=
  AuthPayload.mk "access:1" "refresh:1:7" (without_password alice).

(** The contexts of Alice, a customer, and of an admin who has no row. *)
Definition alice_context : GraphQLContext :=
  mkContext (Some (Auth.mk "1" "alice@example.com" "customer")).

Definition admin_context : GraphQLContext :=
  mkContext (Some (Auth.mk "9" "root@example.com" "admin")).

Definition rename : UpdateUserInput.t :=
  UpdateUserInput.mk (Some (Some "Alice L.")) None.

(** A second stand-in for [@/lib/jwt], whose verification accepts the access
    token that its signing makes for the key 1. *)
Definition jwt_round_trip : JwtLib := {|
  hashPassword p _ := "$" +:+ p;
  comparePassword p h := bool_decide (h = "$" +:+ p);
  signAccessToken payload _ := "access:" +:+ Auth.userId payload;
  signRefreshToken payload env :=
    ("refresh:" +:+ Auth.userId payload +:+ ":" +:+ pretty (entropy env),
     "jti-" +:+ pretty (entropy env));
  verifyAccessToken token _ :=
    if bool_decide (token = "access:1")
    then Ok (Auth.mk "1" "alice@example.com" "customer")
    else Throw (JsError "invalid signature")
|}.

End Sample.

(** * Properties *)

(** ** Strings *)

Lemma startsWith_app (p s : string) :
  Js.startsWith p s = true ↔ ∃ rest, s = p +:+ rest.
Proof.
  unfold Js.startsWith. revert s.
  induction p as [|c p IH]; intros s; simpl.
  - destruct s; split; eauto.
  - destruct s as [|d s]; simpl.
    + split; [discriminate | intros [rest Hrest]; discriminate].
    + destruct (Ascii.ascii_dec c d) as [->|Hne].
      * rewrite IH. split; intros [rest Hr].
        -- exists rest. by rewrite Hr.
        -- exists rest. by injection Hr.
      * split; [discriminate | intros [rest Hrest]].
        injection Hrest as Hcd _. congruence.
Qed.

Lemma substring_app (p s : string) :
  Js.substring (String.length p) (p +:+ s) = s.
Proof. induction p as [|c p IH]; simpl; [by destruct s | exact IH]. Qed.

Example parseInt_digits : Js.parseInt "42" = Js.Int 42.
Proof. reflexivity. Qed.

Example parseInt_prefix : Js.parseInt "  -12px" = Js.Int (-12).
Proof. reflexivity. Qed.

Example parseInt_NaN : Js.parseInt "abc" = Js.NaN ∧ Js.parseInt "-" = Js.NaN.
Proof. split; reflexivity. Qed.

Example parseInt_beyond_int4 :
  Js.parseInt "2147483648" = Js.Int 2147483648
  ∧ ¬ int4_range 2147483648.
Proof. split; [reflexivity | unfold int4_range; lia]. Qed.

Example parseInt_beyond_2_53 :
  Js.parseInt "9007199254740993" = Js.Big
  ∧ Js.parseInt "1000000000000000000000" = Js.Big.
Proof. split; reflexivity. Qed.

Example toLowerCase_role : Js.toLowerCase "CONTRACTOR" = "contractor".
Proof. reflexivity. Qed.

Example toString_key :
  Js.toString (mkInt4 17 I) = "17" ∧ Js.toString (mkInt4 (-5) I) = "-5".
Proof. split; reflexivity. Qed.

(** ** Keys *)

Lemma int4_eq (a b : int4) : int4_val a = int4_val b → a = b.
Proof.
  destruct a as [a Ha], b as [b Hb]. simpl. intros ->.
  f_equal. apply proof_irrel.
Qed.

Lemma int4_in_range (k : int4) : int4_range k.
Proof. destruct k as [n H]. simpl. by apply bool_decide_unpack in H. Qed.

Lemma to_int4_spec (n : Z) :
  match to_int4 n with
  | Some k => int4_val k = n ∧ int4_range n
  | None => ¬ int4_range n
  end.
Proof.
  unfold to_int4.
  assert (Hf : ∀ H, int4_val (mkInt4 n H) = n) by done.
  revert Hf. generalize (mkInt4 n).
  case_bool_decide as Hr; intros f Hf; [|done]. split; [apply Hf|done].
Qed.

(** ** Guards *)

Lemma requireAuth_spec (context : GraphQLContext) :
  requireAuth context =
  match user context with Some u => Ok u | None => Throw UNAUTHENTICATED end.
Proof. unfold requireAuth. by destruct (user context). Qed.

(** C3. [requireOwnership] returns the identity exactly when the identity's
    subject equals the owner id or its role is admin; with no identity it
    fails with the unauthenticated error, and in every other case with the
    forbidden error. *)
Theorem requireOwnership_spec (context : GraphQLContext) (ownerId : string) :
  (∀ u, requireOwnership context ownerId = Ok u ↔
        user context = Some u ∧
        (Auth.userId u = ownerId ∨ Auth.role u = "admin"))
  ∧ (user context = None →
     requireOwnership context ownerId = Throw UNAUTHENTICATED)
  ∧ (∀ u, user context = Some u →
          ¬ (Auth.userId u = ownerId ∨ Auth.role u = "admin") →
          requireOwnership context ownerId = Throw OWN_RESOURCES).
Proof.
  unfold requireOwnership, requireAuth.
  destruct (user context) as [v|]; simpl;
    repeat case_bool_decide; simpl; naive_solver.
Qed.

(** ** The request context *)

Section ContextProperties.
Context {lib : JwtLib}.

(** C5. Building the request context never throws: whatever the
    Authorization header, a context is returned, and it carries an identity
    exactly when the header is [Bearer ] followed by a token that
    verifies, the identity being the verified one. *)
Theorem createContext_never_throws (authorization : option string)
  (env : Env) :
  ∃ ctx, createContext authorization env = Ok ctx ∧
    ∀ u, user ctx = Some u ↔
         ∃ token, authorization = Some ("Bearer " +:+ token) ∧
                  verifyAccessToken token env = Ok u.
Proof.
  unfold createContext.
  destruct authorization as [authHeader|].
  2: { eexists; split; [done|]. intros u; split; [discriminate|].
       intros (token & Hh & _); discriminate. }
  destruct (Js.startsWith "Bearer " authHeader) eqn:Hpre.
  - apply startsWith_app in Hpre as [token ->].
    change 7%nat with (String.length "Bearer ").
    rewrite substring_app.
    destruct (verifyAccessToken token env) as [decoded|e] eqn:Hv; simpl.
    + eexists; split; [done|]. simpl. intros u; split.
      * intros [= <-]. exists token. by destruct decoded.
      * intros (token' & Heq & Hv'). apply (inj Some) in Heq.
        apply (inj (String.append "Bearer ")) in Heq. subst token'.
        rewrite Hv in Hv'. injection Hv' as <-. by destruct decoded.
    + eexists; split; [done|]. simpl. intros u; split; [discriminate|].
      intros (token' & Heq & Hv'). apply (inj Some) in Heq.
      apply (inj (String.append "Bearer ")) in Heq. subst token'.
      congruence.
  - eexists; split; [done|]. intros u; split; [discriminate|].
    intros (token & [= ->] & _).
    assert (Js.startsWith "Bearer " ("Bearer " +:+ token) = true)
      by (apply startsWith_app; eauto).
    congruence.
Qed.

End ContextProperties.

(** ** Statements *)


Lemma filter_email_head (e : string) (l : list User) (u : User)
  (rest : list User) :
  filter (λ u, email u = e) l = u :: rest → u ∈ l ∧ email u = e.
Proof.
  intros Hf.
  assert (Hin : u ∈ filter (λ u, email u = e) l) by (rewrite Hf; left).
  by apply list_elem_of_filter in Hin as [? ?].
Qed.


(** ** [register] *)

Section RegisterProperties.
Context {lib : JwtLib} {drv : Driver}.

(** [Db.insert] either refuses the row and leaves the table, or appends it
    under the next key of the sequence. *)
Lemma insert_cases (e pw n r : string) (ph : option string) (t : Z)
  (db : Database) :
  Db.insert e pw n r ph t db = (Throw DriverError, db)
  ∨ ∃ k : int4,
      int4_val k = next_id db
      ∧ r ∈ userRoleEnum ∧ (e ∉ email <$> rows db)
      ∧ Db.insert e pw n r ph t db =
          (Ok tt,
           mkDatabase
             (rows db ++ [mkUser k e pw n r ph false (Some []) None None t t])
             (next_id db + 1)).
Proof.
  unfold Db.insert.
  destruct (varchar 255 e && varchar 255 pw && varchar 255 n
            && from_option (varchar 50) true ph
            && bool_decide (r ∈ userRoleEnum)
            && negb (bool_decide (e ∈ email <$> rows db))) eqn:Hok;
    [|by left].
  pose proof (to_int4_spec (next_id db)) as Hk.
  destruct (to_int4 (next_id db)) as [k|]; [|by left].
  right. exists k.
  apply andb_prop in Hok as [Hok Hfree].
  apply andb_prop in Hok as [_ Hrole].
  apply bool_decide_eq_true_1 in Hrole.
  apply negb_true_iff, bool_decide_eq_false_1 in Hfree.
  by destruct Hk.
Qed.


(** X11. [register] keeps the constraints of the table: keys and emails stay
    unique and keys stay below the identity sequence, whether it succeeds or
    fails. *)
Lemma register_preserves_wf (input : RegisterInput.t)
  (context : GraphQLContext) (env : Env) (db db' : Database)
  (r : Result SuccessResponse) :
  wf_db db →
  userMutations.register input context env db = (r, db') →
  wf_db db'.
Proof.
  intros (Hid & Hmail & Hlt).
  unfold userMutations.register, bind, Db.select_by_email, ret, throw.
  destruct (0 <? _)%nat; [by intros [= _ <-]|].
  match goal with
  | |- context [Db.insert ?e ?pw ?n ?r ?ph ?t db] =>
      destruct (insert_cases e pw n r ph t db)
        as [->|(k & Hk & _ & Hfree & ->)]
  end; [by intros [= _ <-]|].
  intros [= _ <-]. unfold wf_db. simpl.
  rewrite !fmap_app. simpl. split_and!.
  - apply NoDup_app. split_and!; [done| |apply NoDup_singleton].
    intros k' Hk' ->%list_elem_of_singleton.
    apply list_elem_of_fmap in Hk' as (u & Hu & Hin').
    rewrite Forall_forall in Hlt. specialize (Hlt u Hin').
    rewrite <- Hu, Hk in Hlt. lia.
  - apply NoDup_app. split_and!; [done| |apply NoDup_singleton].
    by intros e He ->%list_elem_of_singleton.
  - apply Forall_app. split.
    + eapply Forall_impl; [exact Hlt|]. simpl. intros; lia.
    + apply Forall_singleton. simpl. lia.
Qed.

#[local] Abbreviation created input context env db :=
  (∃ u : User,
     userMutations.register input context env db =
       (Ok (mkSuccess true "User registered successfully"),
        mkDatabase (rows db ++ [u]) (next_id db + 1))
     ∧ email u = RegisterInput.email input
     ∧ role u = Js.toLowerCase (UserRole_name (RegisterInput.role input))
     ∧ (RegisterInput.role input = ADMIN → role u = "admin")).


End RegisterProperties.


(** An anonymous caller does register an admin on the sample table. *)
Example anonymous_registers_admin :
  userMutations.register (lib := Sample.jwt)
    (RegisterInput.mk "mallory@example.com" "secret" "Mallory" ADMIN None)
    Sample.anonymous Sample.env Sample.db
  = (Ok (mkSuccess true "User registered successfully"),
     mkDatabase
       (rows Sample.db ++
        [mkUser (mkInt4 3 I) "mallory@example.com" "$secret" "Mallory"
                "admin" None false (Some []) None None 200 200]) 4).
Proof. reflexivity. Qed.

(** A phone of 51 characters is refused, and no account is created. *)
Example register_wide_phone :
  userMutations.register (lib := Sample.jwt)
    (RegisterInput.mk "mallory@example.com" "secret" "Mallory" ADMIN
       (Some "123456789012345678901234567890123456789012345678901"))
    Sample.anonymous Sample.env Sample.db
  = (Throw DriverError, Sample.db).
Proof. reflexivity. Qed.

(** ** [login] *)

Lemma update_one (f : User → User) (l1 l2 : list User) (u : User) :
  NoDup (id <$> l1 ++ u :: l2) →
  (λ v, if Db.eq_id (Js.Int (id u)) v then f v else v) <$> (l1 ++ u :: l2)
  = l1 ++ f u :: l2.
Proof.
  intros Hnd.
  rewrite fmap_app, fmap_cons in Hnd.
  apply NoDup_app in Hnd as (_ & Hl1 & Hnd).
  apply NoDup_cons in Hnd as [Hl2 _].
  rewrite fmap_app, fmap_cons. simpl.
  rewrite (bool_decide_eq_true_2 (int4_val (id u) = id u)) by done.
  f_equal; [|f_equal].
  - rewrite <- (list_fmap_id l1) at 2. apply list_fmap_ext.
    intros i v Hv. rewrite bool_decide_eq_false_2; [done|].
    intros Hid%int4_eq. apply (Hl1 (id u)).
    + rewrite <- Hid. apply list_elem_of_fmap_2.
      by apply list_elem_of_lookup_2 in Hv.
    + left.
  - rewrite <- (list_fmap_id l2) at 2. apply list_fmap_ext.
    intros i v Hv. rewrite bool_decide_eq_false_2; [done|].
    intros Hid%int4_eq. apply Hl2. rewrite <- Hid.
    apply list_elem_of_fmap_2. by apply list_elem_of_lookup_2 in Hv.
Qed.

Section LoginProperties.
Context {lib : JwtLib} {drv : Driver}.

#[local] Abbreviation matching input db :=
  (filter (λ u, email u = LoginInput.email input) (rows db)).

Lemma login_no_account input context env db :
  matching input db = [] →
  userMutations.login input context env db = (Throw INVALID_LOGIN, db).
Proof.
  intros Hm. unfold userMutations.login, bind, Db.select_by_email.
  by rewrite Hm.
Qed.

Lemma login_suspended input context env db u rest :
  matching input db = u :: rest → isSuspend u = true →
  userMutations.login input context env db = (Throw SUSPENDED, db).
Proof.
  intros Hm Hs. unfold userMutations.login, bind, Db.select_by_email.
  by rewrite Hm, Hs.
Qed.

Lemma login_wrong_password input context env db u rest :
  matching input db = u :: rest → isSuspend u = false →
  comparePassword (LoginInput.password input) (password u) = false →
  userMutations.login input context env db = (Throw INVALID_LOGIN, db).
Proof.
  intros Hm Hs Hp. unfold userMutations.login, bind, Db.select_by_email.
  by rewrite Hm, Hs, Hp.
Qed.

Lemma login_accepted input context env db u rest :
  matching input db = u :: rest → isSuspend u = false →
  comparePassword (LoginInput.password input) (password u) = true →
  userMutations.login input context env db =
    (Ok (AuthPayload.mk (signAccessToken (payload_of u) env)
                        (signRefreshToken (payload_of u) env).1
                        (without_password u)),
     mkDatabase
       ((λ v, if Db.eq_id (Js.Int (id u)) v
              then assign
                     (userMutations.store_token
                        (default [] (refreshTokens u)
                           ++ [(signRefreshToken (payload_of u) env).2]))
                     (now env) v
              else v) <$> rows db)
       (next_id db)).
Proof.
  intros Hm Hs Hp. unfold userMutations.login, bind, Db.select_by_email.
  rewrite Hm, Hs, Hp. cbn [negb]. fold (payload_of u).
  destruct (signRefreshToken (payload_of u) env) as [refreshToken jti].
  unfold Db.update_by_id, Db.key_param, bind, ret.
  rewrite (bool_decide_eq_true_2 _ (int4_in_range (id u))).
  reflexivity.
Qed.

End LoginProperties.

Section LoginClaims.
Context {lib : JwtLib} {drv : Driver}.

#[local] Abbreviation matching input db :=
  (filter (λ u, email u = LoginInput.email input) (rows db)).

(** C1. What the code does where the claim asks for the invalid-credentials
    error: when the account found for the email is suspended, [login]
    throws the suspended error before the password is looked at, so also
    when the password does not verify. *)
Theorem login_suspended_wrong_password (input : LoginInput.t)
  (context : GraphQLContext) (env : Env) (db : Database) (u : User)
  (rest : list User) :
  matching input db = u :: rest →
  isSuspend u = true →
  comparePassword (LoginInput.password input) (password u) = false →
  userMutations.login input context env db = (Throw SUSPENDED, db)
  ∧ SUSPENDED ≠ INVALID_LOGIN.
Proof.
  intros Hm Hs _. split; [by eapply login_suspended | discriminate].
Qed.

(** Unknown email and wrong password give one and the same error when the
    account is not suspended. *)
Lemma login_enumeration_active (input1 input2 : LoginInput.t)
  (context : GraphQLContext) (env : Env) (db : Database) (u : User)
  (rest : list User) :
  matching input1 db = [] →
  matching input2 db = u :: rest →
  isSuspend u = false →
  comparePassword (LoginInput.password input2) (password u) = false →
  userMutations.login input1 context env db
  = userMutations.login input2 context env db.
Proof.
  intros H1 H2 Hs Hp.
  rewrite (login_no_account _ _ _ _ H1).
  by rewrite (login_wrong_password _ _ _ _ _ _ H2 Hs Hp).
Qed.

(** C6. What the code does where the claim asks for identical errors: an
    attempt with an unknown email gets the invalid-credentials error, an
    attempt with a wrong password on a suspended account gets the suspended
    error, and the two differ in message and in code. *)
Theorem login_enumeration_suspended (input1 input2 : LoginInput.t)
  (context : GraphQLContext) (env : Env) (db : Database) (u : User)
  (rest : list User) :
  matching input1 db = [] →
  matching input2 db = u :: rest →
  isSuspend u = true →
  comparePassword (LoginInput.password input2) (password u) = false →
  (userMutations.login input1 context env db).1 = Throw INVALID_LOGIN
  ∧ (userMutations.login input2 context env db).1 = Throw SUSPENDED
  ∧ (userMutations.login input1 context env db).1
    ≠ (userMutations.login input2 context env db).1.
Proof.
  intros H1 H2 Hs _.
  rewrite (login_no_account _ _ _ _ H1).
  rewrite (login_suspended _ _ _ _ _ _ H2 Hs). simpl.
  split; [done|]. split; [done|]. discriminate.
Qed.

(** C7, as amended. A successful login replaces the row of the account, and
    only that row: the new row has the issued identifier appended to the
    stored token list, [updatedAt] set to the time of the request, and every
    other column as before. *)
Theorem login_appends_jti (input : LoginInput.t) (context : GraphQLContext)
  (env : Env) (db db' : Database) (out : AuthPayload.t) :
  NoDup (id <$> rows db) →
  userMutations.login input context env db = (Ok out, db') →
  ∃ l1 u l2 u' jti,
    rows db = l1 ++ u :: l2
    ∧ email u = LoginInput.email input
    ∧ signRefreshToken (payload_of u) env
      = (AuthPayload.refreshToken out, jti)
    ∧ rows db' = l1 ++ u' :: l2
    ∧ next_id db' = next_id db
    ∧ refreshTokens u' = Some (default [] (refreshTokens u) ++ [jti])
    ∧ updatedAt u' = now env
    ∧ same_account u u'.
Proof.
  intros Hnd Hlogin.
  destruct (matching input db) as [|u rest] eqn:Hm.
  { rewrite (login_no_account _ _ _ _ Hm) in Hlogin. discriminate. }
  destruct (isSuspend u) eqn:Hs.
  { rewrite (login_suspended _ _ _ _ _ _ Hm Hs) in Hlogin. discriminate. }
  destruct (comparePassword (LoginInput.password input) (password u))
    eqn:Hp.
  2: { rewrite (login_wrong_password _ _ _ _ _ _ Hm Hs Hp) in Hlogin.
       discriminate. }
  rewrite (login_accepted _ _ _ _ _ _ Hm Hs Hp) in Hlogin.
  injection Hlogin as <- <-.
  apply filter_email_head in Hm as [Hin Hmail].
  apply list_elem_of_split in Hin as (l1 & l2 & Hrows).
  rewrite Hrows in Hnd |- *.
  destruct (signRefreshToken (payload_of u) env) as [tok jti] eqn:Hsig.
  exists l1, u, l2,
    (assign (userMutations.store_token
               (default [] (refreshTokens u) ++ [jti])) (now env) u), jti.
  cbn [snd rows next_id]. rewrite (update_one _ l1 l2 u Hnd).
  by repeat split.
Qed.

End LoginClaims.

Lemma login_suspended_wrong_password_witness :
  userMutations.login (lib := Sample.jwt) (drv := Sample.driver)
    (LoginInput.mk "bob@example.com" "not-the-password")
    Sample.anonymous Sample.env Sample.db
  = (Throw SUSPENDED, Sample.db)
  ∧ SUSPENDED ≠ INVALID_LOGIN.
Proof.
  apply (login_suspended_wrong_password (lib := Sample.jwt)
           (LoginInput.mk "bob@example.com" "not-the-password")
           Sample.anonymous Sample.env Sample.db Sample.bob []);
    reflexivity.
Defined.

Lemma login_enumeration_suspended_witness :
  (userMutations.login (lib := Sample.jwt) (drv := Sample.driver)
     (LoginInput.mk "nobody@example.com" "guess")
     Sample.anonymous Sample.env Sample.db).1 = Throw INVALID_LOGIN
  ∧ (userMutations.login (lib := Sample.jwt) (drv := Sample.driver)
       (LoginInput.mk "bob@example.com" "guess")
       Sample.anonymous Sample.env Sample.db).1 = Throw SUSPENDED
  ∧ (userMutations.login (lib := Sample.jwt) (drv := Sample.driver)
       (LoginInput.mk "nobody@example.com" "guess")
       Sample.anonymous Sample.env Sample.db).1
    ≠ (userMutations.login (lib := Sample.jwt) (drv := Sample.driver)
         (LoginInput.mk "bob@example.com" "guess")
         Sample.anonymous Sample.env Sample.db).1.
Proof.
  apply (login_enumeration_suspended (lib := Sample.jwt)
           (LoginInput.mk "nobody@example.com" "guess")
           (LoginInput.mk "bob@example.com" "guess")
           Sample.anonymous Sample.env Sample.db Sample.bob []);
    reflexivity.
Defined.

Example sample_login :
  userMutations.login (lib := Sample.jwt) (drv := Sample.driver)
    Sample.alice_login Sample.anonymous Sample.env Sample.db
  = (Ok Sample.alice_session, Sample.db_after).
Proof. reflexivity. Qed.

Lemma login_appends_jti_witness :
  ∃ l1 u l2 u' jti,
    rows Sample.db = l1 ++ u :: l2
    ∧ email u = LoginInput.email Sample.alice_login
    ∧ signRefreshToken (JwtLib := Sample.jwt) (payload_of u) Sample.env
      = (AuthPayload.refreshToken Sample.alice_session, jti)
    ∧ rows Sample.db_after = l1 ++ u' :: l2
    ∧ next_id Sample.db_after = next_id Sample.db
    ∧ refreshTokens u' = Some (default [] (refreshTokens u) ++ [jti])
    ∧ updatedAt u' = now Sample.env
    ∧ same_account u u'.
Proof.
  apply (login_appends_jti (lib := Sample.jwt) (drv := Sample.driver)
           Sample.alice_login Sample.anonymous).
  - apply (bool_decide_unpack _). vm_compute. exact I.
  - reflexivity.
Defined.

(** C7, as stated, fails: Alice's login moves her [updatedAt] from 100 to
    200, so her new row is not her old row with an identifier appended. *)
Lemma login_changes_updatedAt :
  ¬ (∀ out db',
       userMutations.login (lib := Sample.jwt) (drv := Sample.driver)
         Sample.alice_login Sample.anonymous Sample.env Sample.db
       = (Ok out, db') →
       ∃ l1 u l2 jti,
         rows Sample.db = l1 ++ u :: l2
         ∧ rows db' = l1 ++ append_token jti u :: l2).
Proof.
  intros Hclaim.
  destruct (Hclaim _ _ sample_login) as (l1 & u & l2 & jti & Hrows & Hrows').
  destruct l1 as [|a [|b l1]]; simpl in Hrows, Hrows'.
  - injection Hrows as <- <-.
    apply (f_equal (fmap updatedAt)) in Hrows'. discriminate Hrows'.
  - injection Hrows as <- <- <-.
    apply (f_equal (fmap updatedAt)) in Hrows'. discriminate Hrows'.
  - injection Hrows as _ _ Hnil. by destruct l1.
Qed.

(** ** Results and the password column *)

Lemma without_password_hidden (u : User) :
  without_password u !! "password" = None.
Proof. apply lookup_delete_eq. Qed.

Lemma without_password_other (u : User) (k : string) :
  k ≠ "password" → without_password u !! k = row_object u !! k.
Proof. intros Hk. unfold without_password. by rewrite lookup_delete_ne. Qed.

(** The object [o] shows every column of the row [u] but the password. *)
Abbreviation shows u o :=
  (o !! "id" = Some (VNum (id u))
   ∧ o !! "email" = Some (VStr (email u))
   ∧ o !! "name" = Some (VStr (name u))
   ∧ o !! "role" = Some (VStr (role u))
   ∧ o !! "phone" = Some (of_option VStr (phone u))
   ∧ o !! "isSuspend" = Some (VBool (isSuspend u))
   ∧ o !! "refreshTokens" = Some (of_option VStrings (refreshTokens u))
   ∧ o !! "passwordResetOTP" = Some (of_option VStr (passwordResetOTP u))
   ∧ o !! "otpExpiry" = Some (of_option VDate (otpExpiry u))
   ∧ o !! "createdAt" = Some (VDate (createdAt u))
   ∧ o !! "updatedAt" = Some (VDate (updatedAt u))
   ∧ o !! "password" = None).

Lemma without_password_shows (u : User) : shows u (without_password u).
Proof.
  unfold without_password, row_object. split_and!; by simplify_map_eq.
Qed.

Lemma filter_id_head (x : Js.Number) (l : list User) (u : User)
  (rest : list User) :
  filter (λ u, Db.eq_id x u = true) l = u :: rest →
  u ∈ l ∧ x = Js.Int (id u).
Proof.
  intros Hf.
  assert (Hin : u ∈ filter (λ u, Db.eq_id x u = true) l)
    by (rewrite Hf; left).
  apply list_elem_of_filter in Hin as [Hx Hin]. split; [done|].
  destruct x as [|n|]; [discriminate| |discriminate]. simpl in Hx.
  by apply bool_decide_eq_true_1 in Hx as ->.
Qed.

Lemma filter_id_none (n : Z) (l : list User) :
  filter (λ u, Db.eq_id (Js.Int n) u = true) l = [] ↔
  ∀ u, u ∈ l → int4_val (id u) ≠ n.
Proof.
  split.
  - intros Hf u Hin Hid.
    assert (Hu : u ∈ filter (λ u, Db.eq_id (Js.Int n) u = true) l).
    { apply list_elem_of_filter. split; [|done].
      simpl. by apply bool_decide_eq_true_2. }
    rewrite Hf in Hu. by apply not_elem_of_nil in Hu.
  - intros Hall. induction l as [|v l IH]; [done|].
    rewrite filter_cons_False.
    + apply IH. intros u Hu. apply Hall. by right.
    + simpl. intros Hv%bool_decide_eq_true_1.
      by apply (Hall v); [left|].
Qed.

Lemma filter_id_unique (l : list User) (u : User) :
  NoDup (id <$> l) → u ∈ l →
  filter (λ v, Db.eq_id (Js.Int (id u)) v = true) l = [u].
Proof.
  induction l as [|v l IH]; intros Hnd Hin.
  - by apply not_elem_of_nil in Hin.
  - rewrite fmap_cons in Hnd. apply NoDup_cons in Hnd as [Hv Hnd].
    apply elem_of_cons in Hin as [->|Hin].
    + rewrite filter_cons_True by (simpl; by apply bool_decide_eq_true_2).
      f_equal. apply filter_id_none. intros w Hw Hid%int4_eq.
      apply Hv. rewrite <- Hid. by apply list_elem_of_fmap_2.
    + rewrite filter_cons_False; [by apply IH|].
      simpl. intros Hid%bool_decide_eq_true_1%int4_eq.
      apply Hv. rewrite Hid. by apply list_elem_of_fmap_2.
Qed.

Section QueryProperties.
Context {lib : JwtLib} {drv : Driver}.

Lemma select_by_id_number (n : Z) (db : Database) :
  int4_range n →
  Db.select_by_id (Js.Int n) db
  = (Ok (filter (λ u, Db.eq_id (Js.Int n) u = true) (rows db)), db).
Proof.
  intros Hn. unfold Db.select_by_id, Db.key_param, bind, ret.
  by rewrite (bool_decide_eq_true_2 _ Hn).
Qed.

Lemma select_by_id_beyond (x : Js.Number) (db : Database) :
  (x = Js.Big ∨ ∃ n, x = Js.Int n ∧ ¬ int4_range n) →
  Db.select_by_id x db = (Throw DriverError, db).
Proof.
  unfold Db.select_by_id, Db.key_param, bind, throw.
  intros [->|(n & -> & Hn)]; [done|].
  by rewrite (bool_decide_eq_false_2 _ Hn).
Qed.

(** C9, as amended. The user-by-id query looks at no identity: for every
    request context, the anonymous one included, and every id argument that
    parses to an integer within the 32-bit range of the key, it returns
    without throwing and leaves the table alone; the result is null exactly
    when no account has that key, and otherwise it is an object that shows
    every column of a stored account with that key except the password: the
    account with that key, as the key is unique.  When the id parses to a
    number outside that range, the query throws the driver's error, and so
    it does for an id that parses to no number when the driver refuses
    [NaN]. *)
Theorem user_query_public (idarg : string) (context : GraphQLContext)
  (db : Database) :
  (∀ n, Js.parseInt idarg = Js.Int n → int4_range n →
     ∃ r, userQueries.user idarg context db = (Ok r, db)
       ∧ (r = None ↔ ∀ u, u ∈ rows db → int4_val (id u) ≠ n)
       ∧ (∀ o, r = Some o →
            ∃ u, u ∈ rows db ∧ int4_val (id u) = n ∧ shows u o)
       ∧ (NoDup (id <$> rows db) →
          ∀ u, u ∈ rows db → int4_val (id u) = n →
               r = Some (without_password u)))
  ∧ (∀ n, Js.parseInt idarg = Js.Int n → ¬ int4_range n →
       userQueries.user idarg context db = (Throw DriverError, db))
  ∧ (Js.parseInt idarg = Js.Big →
     userQueries.user idarg context db = (Throw DriverError, db))
  ∧ (Js.parseInt idarg = Js.NaN → NaN_rejected = true →
     userQueries.user idarg context db = (Throw DriverError, db)).
Proof.
  unfold userQueries.user, bind. split_and!.
  - intros n -> Hn. rewrite (select_by_id_number _ _ Hn).
    destruct (filter _ (rows db)) as [|u rest] eqn:Hf.
    + eexists. split; [done|].
      pose proof (proj1 (filter_id_none _ _) Hf) as Hnone.
      split; [done|]. split; [discriminate|].
      intros _ u Hu Hid. by destruct (Hnone u Hu).
    + eexists. split; [done|].
      pose proof (filter_id_head _ _ _ _ Hf) as [Hin [= ->]].
      split; [|split].
      * split; [discriminate|]. intros Hall. by destruct (Hall u Hin).
      * intros o [= <-]. exists u.
        split; [done|]. split; [done|]. apply without_password_shows.
      * intros Hnd v Hv Hid%int4_eq. rewrite <- Hid in Hf.
        rewrite (filter_id_unique _ _ Hnd Hv) in Hf. by injection Hf as ->.
  - intros n -> Hn. rewrite select_by_id_beyond; [done|]. right. by exists n.
  - intros ->. rewrite select_by_id_beyond; [done|]. by left.
  - intros -> Hnan. unfold Db.select_by_id, Db.key_param, bind, throw.
    by rewrite Hnan.
Qed.

End QueryProperties.

(** The query for [" 2nd"], which parses to 2, returns Bob's account to an
    anonymous caller. *)
Example user_query_sample :
  Js.parseInt " 2nd" = Js.Int 2
  ∧ userQueries.user (drv := Sample.driver) " 2nd" Sample.anonymous Sample.db
    = (Ok (Some (without_password Sample.bob)), Sample.db).
Proof. split; reflexivity. Qed.

(** C9, as stated, fails: no account of the sample table has the key
    2147483648, and the query for that id throws instead of returning
    null. *)
Lemma user_query_beyond_range :
  ¬ ((∀ u, u ∈ rows Sample.db →
           Js.parseInt "2147483648" ≠ Js.Int (id u)) →
     (userQueries.user (drv := Sample.driver) "2147483648" Sample.anonymous
        Sample.db).1 = Ok None).
Proof.
  intros Hclaim.
  assert (Hnone : ∀ u, u ∈ rows Sample.db →
                       Js.parseInt "2147483648" ≠ Js.Int (id u)).
  { intros u Hu. apply list_elem_of_In in Hu. simpl in Hu.
    destruct Hu as [<-|[<-|[]]]; discriminate. }
  specialize (Hclaim Hnone). discriminate Hclaim.
Qed.

Section ResultProperties.
Context {lib : JwtLib} {drv : Driver}.

Lemma select_by_id_returns (x : Js.Number) (db db' : Database)
  (l : list User) :
  Db.select_by_id x db = (Ok l, db') →
  db' = db ∧ l = filter (λ u, Db.eq_id x u = true) (rows db).
Proof.
  unfold Db.select_by_id, Db.key_param, bind, ret, throw.
  destruct x as [|n|]; [destruct NaN_rejected|case_bool_decide|];
    intros [= <- <-]; done.
Qed.

Lemma select_by_id_first (x : Js.Number) (db db' : Database) (u : User)
  (rest : list User) :
  Db.select_by_id x db = (Ok (u :: rest), db') →
  db' = db ∧ public_record db (without_password u).
Proof.
  intros [-> Hl]%select_by_id_returns. split; [done|].
  symmetry in Hl. apply filter_id_head in Hl as [Hin _].
  by exists u.
Qed.

Lemma public_record_hidden (db : Database) (o : gmap string Value) :
  public_record db o → o !! "password" = None.
Proof. intros (u & _ & ->). apply without_password_hidden. Qed.

Lemma login_result (input : LoginInput.t) (context : GraphQLContext)
  (env : Env) (db db' : Database) (out : AuthPayload.t) :
  userMutations.login input context env db = (Ok out, db') →
  public_record db (AuthPayload.user out).
Proof.
  intros Hlogin.
  destruct (filter (λ u, email u = LoginInput.email input) (rows db))
    as [|u rest] eqn:Hm.
  { rewrite (login_no_account _ _ _ _ Hm) in Hlogin. discriminate. }
  destruct (isSuspend u) eqn:Hs.
  { rewrite (login_suspended _ _ _ _ _ _ Hm Hs) in Hlogin. discriminate. }
  destruct (comparePassword (LoginInput.password input) (password u))
    eqn:Hp.
  2: { rewrite (login_wrong_password _ _ _ _ _ _ Hm Hs Hp) in Hlogin.
       discriminate. }
  rewrite (login_accepted _ _ _ _ _ _ Hm Hs Hp) in Hlogin.
  injection Hlogin as <- _. simpl.
  apply filter_email_head in Hm as [Hin _]. by exists u.
Qed.

Lemma updateUser_result (idarg : string) (input : UpdateUserInput.t)
  (context : GraphQLContext) (env : Env) (db db' : Database)
  (o : gmap string Value) :
  userMutations.updateUser idarg input context env db = (Ok o, db') →
  public_record db' o.
Proof.
  unfold userMutations.updateUser, bind, lift.
  destruct (requireOwnership context idarg); [|discriminate].
  destruct (Db.update_by_id _ _ _ db) as [[[]|e] db1]; [|discriminate].
  destruct (Db.select_by_id _ db1) as [[[|u rest]|e] db2] eqn:Hsel;
    try discriminate.
  intros [= <- <-].
  by apply select_by_id_first in Hsel as [-> Hpub].
Qed.

Lemma users_result (context : GraphQLContext) (db db' : Database)
  (os : list (gmap string Value)) :
  userQueries.users context db = (Ok os, db') →
  db' = db ∧ os = without_password <$> rows db.
Proof.
  unfold userQueries.users, bind, lift, Db.select_all, ret.
  destruct (requireAuth context); [|discriminate].
  by intros [= <- <-].
Qed.

Lemma user_result (idarg : string) (context : GraphQLContext)
  (db db' : Database) (o : gmap string Value) :
  userQueries.user idarg context db = (Ok (Some o), db') →
  public_record db' o.
Proof.
  unfold userQueries.user, bind, ret.
  destruct (Db.select_by_id _ db) as [[[|u rest]|e] db1] eqn:Hsel;
    try discriminate.
  intros [= <- <-].
  by apply select_by_id_first in Hsel as [-> Hpub].
Qed.

Lemma me_result (context : GraphQLContext) (db db' : Database)
  (o : gmap string Value) :
  userQueries.me context db = (Ok o, db') →
  public_record db' o.
Proof.
  unfold userQueries.me, bind, lift, ret.
  destruct (requireAuth context) as [currentUser|]; [|discriminate].
  destruct (Db.select_by_id _ db) as [[[|u rest]|e] db1] eqn:Hsel;
    try discriminate.
  intros [= <- <-].
  by apply select_by_id_first in Hsel as [-> Hpub].
Qed.

(** C10. Every account object a resolver returns is a stored row with its
    password field removed, and so has no [password] key: the [user] of
    login's payload, the results of updateUser, of user and of me, and each
    element of the result of users. *)
Theorem results_omit_password :
  (∀ input context env db db' out,
     userMutations.login input context env db = (Ok out, db') →
     public_record db (AuthPayload.user out)
     ∧ AuthPayload.user out !! "password" = None)
  ∧ (∀ idarg input context env db db' o,
       userMutations.updateUser idarg input context env db = (Ok o, db') →
       public_record db' o ∧ o !! "password" = None)
  ∧ (∀ context db db' os,
       userQueries.users context db = (Ok os, db') →
       os = without_password <$> rows db
       ∧ Forall (λ o, o !! "password" = None) os)
  ∧ (∀ idarg context db db' o,
       userQueries.user idarg context db = (Ok (Some o), db') →
       public_record db' o ∧ o !! "password" = None)
  ∧ (∀ context db db' o,
       userQueries.me context db = (Ok o, db') →
       public_record db' o ∧ o !! "password" = None).
Proof.
  split_and!.
  - intros ?????? Hr%login_result. eauto using public_record_hidden.
  - intros ??????? Hr%updateUser_result. eauto using public_record_hidden.
  - intros ???? [_ ->]%users_result. split; [done|].
    apply Forall_fmap, Forall_true. intros u. apply without_password_hidden.
  - intros ????? Hr%user_result. eauto using public_record_hidden.
  - intros ???? Hr%me_result. eauto using public_record_hidden.
Qed.

End ResultProperties.

(** ** The token service of the specification *)

Section TokenRoundTrip.
Variable sign : string → TokenService.Claims → string.

(** C8. Verifying an access token issued for an identity returns that
    identity as long as the time is before the expiry, which is the time of
    issue plus the configured access lifetime, and fails with
    [InvalidToken] from the expiry on. *)
Theorem access_token_round_trip (cfg : TokenService.Config)
  (issuedAt now : Z) (i : TokenService.Identity) :
  (now < issuedAt + TokenService.accessLifetime cfg →
   TokenService.verifyAccessToken sign cfg now
     (TokenService.issueAccessToken sign cfg issuedAt i) = inl i)
  ∧ (issuedAt + TokenService.accessLifetime cfg ≤ now →
     TokenService.verifyAccessToken sign cfg now
       (TokenService.issueAccessToken sign cfg issuedAt i)
     = inr TokenService.InvalidToken).
Proof.
  unfold TokenService.verifyAccessToken, TokenService.issueAccessToken.
  simpl. rewrite bool_decide_eq_true_2 by done. simpl.
  split; intros Ht.
  - by rewrite bool_decide_eq_true_2.
  - rewrite bool_decide_eq_false_2; [done | lia].
Qed.

End TokenRoundTrip.

(** ** The session store of the specification *)

Section SessionInvariant.
Import TokenService SessionStore.
Variable sign : string → Claims → string.
Variable new_jti : gset string → string.
Variable cfg : Config.

#[local] Abbreviation step := (SessionStore.step sign new_jti cfg).

Lemma current_insert (u v : string) (X I : gset string) (s : Store) :
  current u (mkStore (<[v := X]> (sessions s)) I)
  = if decide (v = u) then X else current u s.
Proof.
  unfold current. simpl. rewrite lookup_insert.
  by destruct (decide (v = u)).
Qed.

Lemma verifyRefreshToken_embedded (now : Z) (t : Token) (i : Identity)
  (j : string) :
  verifyRefreshToken sign cfg now t = inl (i, j) →
  i = identity (claims t) ∧ jti (claims t) = Some j.
Proof.
  unfold verifyRefreshToken.
  destruct (_ && _); [|discriminate].
  destruct (jti (claims t)); [|discriminate].
  by intros [= <- <-].
Qed.

(** The stores that arise keep every current identifier among the issued
    ones. *)
Lemma consistent_empty : consistent SessionStore.empty.
Proof. intros u j. unfold current. simpl. set_solver. Qed.

Lemma consistent_step (s : Store) (o : Op) :
  consistent s → consistent (step s o).
Proof.
  intros Hs. destruct o as [now i|now t|now t|v]; simpl.
  - intros u j. unfold recordSession.
    rewrite current_insert. simpl.
    specialize (Hs u j).
    destruct (decide (subject i = u)) as [->|]; set_solver.
  - unfold SessionStore.refresh.
    destruct (verifyRefreshToken sign cfg now t) as [[i k]|e]; [|done].
    destruct (isActive (subject i) k s); [|done]. simpl.
    intros u j. unfold rotate.
    rewrite current_insert. simpl.
    specialize (Hs u j).
    destruct (decide (subject i = u)) as [->|]; set_solver.
  - unfold SessionStore.logout.
    destruct (verifyRefreshToken sign cfg now t) as [[i k]|e]; [|done].
    simpl. intros u j. unfold revoke.
    rewrite current_insert. simpl.
    specialize (Hs u j).
    destruct (decide (subject i = u)) as [->|]; set_solver.
  - intros u j. unfold revokeAll.
    rewrite current_insert. simpl.
    specialize (Hs u j).
    destruct (decide (v = u)) as [->|]; set_solver.
Qed.

End SessionInvariant.

Section SessionProperties.
Import TokenService SessionStore.
Variable sign : string → Claims → string.
Variable new_jti : gset string → string.
Variable cfg : Config.
Hypothesis new_jti_fresh : ∀ X, new_jti X ∉ X.

#[local] Abbreviation refresh := (SessionStore.refresh sign new_jti cfg).
#[local] Abbreviation logout := (SessionStore.logout sign cfg).
#[local] Abbreviation step := (SessionStore.step sign new_jti cfg).
#[local] Abbreviation run := (SessionStore.run sign new_jti cfg).

Lemma removed_fresh (u j : string) (s : Store) :
  removed u j s → new_jti (issued s) ≠ j.
Proof. intros [Hi _] <-. by apply (new_jti_fresh (issued s)). Qed.

Lemma removed_recordSession (u j v : string) (s : Store) :
  removed u j s → removed u j (recordSession v (new_jti (issued s)) s).
Proof.
  intros Hr. pose proof (removed_fresh _ _ _ Hr) as Hne.
  destruct Hr as [Hi Hc]. unfold removed, recordSession. simpl.
  rewrite current_insert.
  split; [set_solver|]. destruct (decide (v = u)) as [->|]; set_solver.
Qed.

Lemma removed_rotate (u j v old : string) (s : Store) :
  removed u j s → removed u j (rotate v old (new_jti (issued s)) s).
Proof.
  intros Hr. pose proof (removed_fresh _ _ _ Hr) as Hne.
  destruct Hr as [Hi Hc]. unfold removed, rotate. simpl.
  rewrite current_insert.
  split; [set_solver|]. destruct (decide (v = u)) as [->|]; set_solver.
Qed.

Lemma removed_revoke (u j v k : string) (s : Store) :
  removed u j s → removed u j (revoke v k s).
Proof.
  intros [Hi Hc]. unfold removed, revoke. simpl.
  rewrite current_insert.
  split; [done|]. destruct (decide (v = u)) as [->|]; set_solver.
Qed.

Lemma removed_revokeAll (u j v : string) (s : Store) :
  removed u j s → removed u j (revokeAll v s).
Proof.
  intros [Hi Hc]. unfold removed, revokeAll. simpl.
  rewrite current_insert.
  split; [done|]. destruct (decide (v = u)) as [->|]; set_solver.
Qed.

Lemma removed_step (u j : string) (s : Store) (o : Op) :
  removed u j s → removed u j (step s o).
Proof.
  intros Hr. destruct o as [now i|now t|now t|v]; simpl.
  - by apply removed_recordSession.
  - unfold SessionStore.refresh.
    destruct (verifyRefreshToken sign cfg now t) as [[i k]|e]; [|done].
    destruct (isActive (subject i) k s); [|done].
    by apply removed_rotate.
  - unfold SessionStore.logout.
    destruct (verifyRefreshToken sign cfg now t) as [[i k]|e]; [|done].
    by apply removed_revoke.
  - by apply removed_revokeAll.
Qed.

Lemma removed_run (u j : string) (ops : list Op) (s : Store) :
  removed u j s → removed u j (run ops s).
Proof.
  revert s. induction ops as [|o ops IH]; intros s Hr; [done|].
  simpl. apply IH. by apply removed_step.
Qed.

Lemma refresh_removed (now : Z) (t : Token) (u j : string) (s : Store) :
  removed u j s →
  subject (identity (claims t)) = u → jti (claims t) = Some j →
  refresh now t s = (inr InvalidToken, s).
Proof.
  intros [_ Hc] Hu Hj. unfold SessionStore.refresh.
  destruct (verifyRefreshToken sign cfg now t) as [[i k]|[]] eqn:Hv;
    [|done].
  apply (verifyRefreshToken_embedded sign cfg) in Hv as [-> Hk].
  rewrite Hj in Hk. injection Hk as <-. rewrite Hu.
  unfold isActive. by rewrite bool_decide_eq_false_2.
Qed.

(** C2. In a store whose current identifiers were all issued, let a refresh
    token carry the identifier [j] for its user.  Once that token has been
    exchanged by a successful refresh, or revoked by a logout while [j] was
    current, then after any further operations [j] is not in the user's
    current-token-set and a refresh presenting the token fails with
    [InvalidToken] and leaves the store as it is. *)
Theorem removed_jti_stays_removed (s s' : Store) (t : Token) (j : string)
  (now : Z) :
  consistent s →
  jti (claims t) = Some j →
  ((∃ pair, refresh now t s = (inl pair, s'))
   ∨ (isActive (subject (identity (claims t))) j s = true
      ∧ logout now t s = (inl tt, s'))) →
  ∀ (ops : list Op) (now' : Z),
    (j ∉ current (subject (identity (claims t))) (run ops s'))
    ∧ refresh now' t (run ops s') = (inr InvalidToken, run ops s').
Proof.
  intros Hcons Hj Hused ops now'.
  assert (Hrem : removed (subject (identity (claims t))) j s').
  { destruct Hused as [[pair Href]|[Hact Hout]].
    - unfold SessionStore.refresh in Href.
      destruct (verifyRefreshToken sign cfg now t) as [[i k]|e] eqn:Hv;
        [|discriminate].
      apply (verifyRefreshToken_embedded sign cfg) in Hv as [-> Hk].
      rewrite Hj in Hk. injection Hk as <-.
      destruct (isActive _ j s) eqn:Hact; [|discriminate].
      injection Href as _ <-.
      apply bool_decide_eq_true_1 in Hact.
      pose proof (Hcons _ _ Hact) as Hi.
      assert (Hne : new_jti (issued s) ≠ j).
      { intros <-. by apply (new_jti_fresh (issued s)). }
      unfold removed, rotate. simpl.
      rewrite current_insert. rewrite decide_True by done.
      set_solver.
    - unfold SessionStore.logout in Hout.
      destruct (verifyRefreshToken sign cfg now t) as [[i k]|e] eqn:Hv;
        [|discriminate].
      apply (verifyRefreshToken_embedded sign cfg) in Hv as [-> Hk].
      rewrite Hj in Hk. injection Hk as <-.
      injection Hout as <-.
      apply bool_decide_eq_true_1 in Hact.
      pose proof (Hcons _ _ Hact) as Hi.
      unfold removed, revoke. simpl.
      rewrite current_insert. rewrite decide_True by done.
      set_solver. }
  pose proof (removed_run _ _ ops _ Hrem) as Hrun.
  split; [by destruct Hrun|].
  by apply (refresh_removed now' t (subject (identity (claims t))) j).
Qed.

End SessionProperties.

Example session_sample_jti :
  TokenService.jti (TokenService.claims SessionSample.token) = Some "0".
Proof. reflexivity. Qed.

Lemma removed_jti_stays_removed_witness :
  ("0" ∉ SessionStore.current "7"
           (SessionStore.run SessionSample.sign SessionSample.new_jti
              SessionSample.cfg SessionSample.later SessionSample.store1))
  ∧ SessionStore.refresh SessionSample.sign SessionSample.new_jti
      SessionSample.cfg 40 SessionSample.token
      (SessionStore.run SessionSample.sign SessionSample.new_jti
         SessionSample.cfg SessionSample.later SessionSample.store1)
    = (inr TokenService.InvalidToken,
       SessionStore.run SessionSample.sign SessionSample.new_jti
         SessionSample.cfg SessionSample.later SessionSample.store1).
Proof.
  apply (removed_jti_stays_removed SessionSample.sign SessionSample.new_jti
           SessionSample.cfg (λ X, is_fresh X)
           SessionSample.store0 SessionSample.store1 SessionSample.token
           "0" 10).
  - apply (consistent_step SessionSample.sign SessionSample.new_jti
             SessionSample.cfg SessionStore.empty
             (SessionStore.Login 0 SessionSample.carol)).
    apply consistent_empty.
  - reflexivity.
  - left. eexists. vm_compute. reflexivity.
Defined.

(** ** Sample runs *)

Example context_of_bearer :
  createContext (lib := Sample.jwt) (Some "Bearer t-alice") Sample.env
  = Ok (mkContext (Some (Auth.mk "1" "alice@example.com" "customer"))).
Proof. reflexivity. Qed.

Example context_of_bad_token :
  createContext (lib := Sample.jwt) (Some "Bearer forged") Sample.env
  = Ok Sample.anonymous.
Proof. reflexivity. Qed.

Example context_of_other_scheme :
  createContext (lib := Sample.jwt) (Some "Basic dXNlcg==") Sample.env
  = Ok Sample.anonymous
  ∧ createContext (lib := Sample.jwt) None Sample.env = Ok Sample.anonymous.
Proof. split; reflexivity. Qed.

(** Alice, a customer, may update her own account and not Bob's. *)
Example alice_updates_bob :
  (userMutations.updateUser (drv := Sample.driver) "2"
     (UpdateUserInput.mk (Some (Some "Robert")) None)
     (mkContext (Some (Auth.mk "1" "alice@example.com" "customer")))
     Sample.env Sample.db).1
  = Throw OWN_RESOURCES.
Proof. reflexivity. Qed.

Example alice_updates_herself :
  (userMutations.updateUser (drv := Sample.driver) "1"
     (UpdateUserInput.mk (Some (Some "Alice L.")) None)
     (mkContext (Some (Auth.mk "1" "alice@example.com" "customer")))
     Sample.env Sample.db).2
  = mkDatabase
      [mkUser Sample.key1 "alice@example.com" "$wonderland" "Alice L."
              "customer" None false (Some ["jti-0"]) None None 100 200;
       Sample.bob] 3.
Proof. reflexivity. Qed.

(** An explicit [null] clears Bob's phone; for the name it is refused. *)
Example admin_clears_phone :
  (userMutations.updateUser (drv := Sample.driver) "2"
     (UpdateUserInput.mk None (Some None)) Sample.admin_context
     Sample.env Sample.db).2
  = mkDatabase
      [Sample.alice;
       mkUser Sample.key2 "bob@example.com" "$builder" "Bob" "contractor"
              None true (Some []) None None 110 200] 3.
Proof. reflexivity. Qed.

Example admin_nulls_name :
  userMutations.updateUser (drv := Sample.driver) "2"
    (UpdateUserInput.mk (Some None) None) Sample.admin_context
    Sample.env Sample.db
  = (Throw DriverError, Sample.db).
Proof. reflexivity. Qed.

(** An id beyond the range of the key is refused by every statement. *)
Example admin_deletes_beyond_range :
  userMutations.deleteUser (drv := Sample.driver) "2147483648"
    Sample.admin_context Sample.db
  = (Throw DriverError, Sample.db).
Proof. reflexivity. Qed.

Example anonymous_lists_users :
  (userQueries.users Sample.anonymous Sample.db).1 = Throw UNAUTHENTICATED.
Proof. reflexivity. Qed.

Example anonymous_reads_user :
  (userQueries.user (drv := Sample.driver) "2" Sample.anonymous Sample.db).1
  = Ok (Some (without_password Sample.bob)).
Proof. reflexivity. Qed.

(** * Further properties of the guards and the resolvers *)

(** ** The role guards *)

(** X1. [requireRole] returns the identity exactly when one is present and
    its role is the required one; with no identity it fails with the
    unauthenticated error, and with another role it fails with the forbidden
    error whose message names the required role. *)
Theorem requireRole_spec (context : GraphQLContext) (r : string) :
  (∀ u, requireRole context r = Ok u ↔
        user context = Some u ∧ Auth.role u = r)
  ∧ (user context = None → requireRole context r = Throw UNAUTHENTICATED)
  ∧ (∀ u, user context = Some u → Auth.role u ≠ r →
          requireRole context r =
          Throw (GraphQLError ("Forbidden - " +:+ r +:+ " access required")
                              (Some "FORBIDDEN"))).
Proof.
  unfold requireRole, requireAuth.
  destruct (user context) as [v|]; simpl;
    repeat case_bool_decide; simpl; naive_solver.
Qed.

(** X2. [requireAnyRole] returns the identity exactly when one is present and
    its role is in the list; with no identity it fails with the
    unauthenticated error and otherwise with the forbidden error.  With an
    empty list it lets nobody through. *)
Theorem requireAnyRole_spec (context : GraphQLContext) (roles : list string) :
  (∀ u, requireAnyRole context roles = Ok u ↔
        user context = Some u ∧ Auth.role u ∈ roles)
  ∧ (user context = None →
     requireAnyRole context roles = Throw UNAUTHENTICATED)
  ∧ (∀ u, user context = Some u → Auth.role u ∉ roles →
          requireAnyRole context roles =
          Throw (GraphQLError "Forbidden - Insufficient permissions"
                              (Some "FORBIDDEN")))
  ∧ (∀ u, requireAnyRole context [] ≠ Ok u).
Proof.
  unfold requireAnyRole, requireAuth.
  destruct (user context) as [v|]; simpl;
    repeat case_bool_decide; simpl; split_and!; try naive_solver.
  all: intros u; rewrite bool_decide_eq_false_2 by apply not_elem_of_nil;
    discriminate.
Qed.

(** X3. The guards compose: a guard that passes returns the identity of the
    context and nothing else, so [requireAuth] passes with the same result;
    and [requireAnyRole] on a one-element list passes exactly when
    [requireRole] does. *)
Theorem guards_return_identity (context : GraphQLContext) (r owner : string)
  (roles : list string) (u : Auth.user) :
  (requireRole context r = Ok u → requireAuth context = Ok u)
  ∧ (requireAnyRole context roles = Ok u → requireAuth context = Ok u)
  ∧ (requireOwnership context owner = Ok u → requireAuth context = Ok u)
  ∧ (requireAnyRole context [r] = Ok u ↔ requireRole context r = Ok u).
Proof.
  unfold requireRole, requireAnyRole, requireOwnership, requireAuth.
  destruct (user context) as [v|]; simpl; [|naive_solver].
  split_and!.
  - by case_bool_decide.
  - by destruct (negb _).
  - by destruct (_ && _).
  - destruct (decide (Auth.role v = r)) as [Hr|Hr].
    + rewrite (bool_decide_eq_true_2 (_ ∈ _)) by (rewrite Hr; left).
      by rewrite (bool_decide_eq_false_2 (_ ≠ _)) by naive_solver.
    + rewrite (bool_decide_eq_false_2 (_ ∈ _))
        by (by intros ?%list_elem_of_singleton).
      by rewrite (bool_decide_eq_true_2 (_ ≠ _)) by done.
Qed.

(** ** Keys as strings *)

Lemma digit_pretty_N_char (d : N) :
  (d < 10)%N → Js.digit (pretty_N_char d) = Some (Z.of_N d).
Proof.
  intros Hd.
  assert (d = 0 ∨ d = 1 ∨ d = 2 ∨ d = 3 ∨ d = 4 ∨ d = 5 ∨ d = 6 ∨ d = 7
          ∨ d = 8 ∨ d = 9)%N as Hcases by lia.
  destruct Hcases as [->|[->|[->|[->|[->|[->|[->|[->|[->| ->]]]]]]]]];
    reflexivity.
Qed.

Lemma digits_pretty_N_go (x : N) (s : string) :
  (0 < x)%N →
  Js.digits None (pretty_N_go x s) = Js.digits (Some (Z.of_N x)) s.
Proof.
  revert s. induction (N.lt_wf_0 x) as [x _ IH]. intros s Hx.
  rewrite pretty_N_go_step by done.
  assert (Hd : Js.digit (pretty_N_char (x `mod` 10)) =
               Some (Z.of_N (x `mod` 10)))
    by (apply digit_pretty_N_char, N.mod_lt; lia).
  destruct (decide (x `div` 10 = 0)%N) as [Hq|Hq].
  - rewrite Hq, pretty_N_go_0. simpl. rewrite Hd. simpl.
    do 2 f_equal. pose proof (N.div_mod x 10 ltac:(done)). lia.
  - rewrite IH; [|by apply N.div_lt|by apply N.neq_0_lt_0].
    simpl. rewrite Hd. simpl. do 2 f_equal.
    pose proof (N.div_mod x 10 ltac:(done)). lia.
Qed.

Lemma pretty_N_go_head (x : N) (s : string) :
  (0 < x)%N →
  ∃ d rest, pretty_N_go x s = String (pretty_N_char d) rest ∧ (d < 10)%N.
Proof.
  revert s. induction (N.lt_wf_0 x) as [x _ IH]. intros s Hx.
  rewrite pretty_N_go_step by done.
  destruct (decide (x `div` 10 = 0)%N) as [Hq|Hq].
  - rewrite Hq, pretty_N_go_0. eexists _, _. split; [done|].
    apply N.mod_lt. lia.
  - apply IH; [by apply N.div_lt|by apply N.neq_0_lt_0].
Qed.

Lemma parseInt_digit_head (d : N) (rest : string) :
  (d < 10)%N →
  Js.parseInt (String (pretty_N_char d) rest)
  = from_option Js.number_of Js.NaN
      (Js.digits None (String (pretty_N_char d) rest)).
Proof.
  intros Hd.
  assert (d = 0 ∨ d = 1 ∨ d = 2 ∨ d = 3 ∨ d = 4 ∨ d = 5 ∨ d = 6 ∨ d = 7
          ∨ d = 8 ∨ d = 9)%N as Hcases by lia.
  destruct Hcases as [->|[->|[->|[->|[->|[->|[->|[->|[->| ->]]]]]]]]];
    reflexivity.
Qed.

Lemma number_of_small (n : Z) :
  Z.abs n < 9007199254740992 → Js.number_of n = Js.Int n.
Proof.
  intros Hn. unfold Js.number_of.
  by rewrite (proj2 (Z.ltb_lt _ _) Hn).
Qed.

Lemma parseInt_pretty (n : Z) :
  Z.abs n < 9007199254740992 → Js.parseInt (pretty n) = Js.Int n.
Proof.
  intros Hn. unfold pretty, pretty_Z.
  destruct n as [|p|p]; [reflexivity| |].
  - unfold pretty, pretty_positive, pretty, pretty_N.
    rewrite decide_False by done.
    destruct (pretty_N_go_head (N.pos p) "") as (d & rest & Heq & Hd);
      [done|].
    rewrite Heq, parseInt_digit_head, <- Heq by done.
    rewrite digits_pretty_N_go by done. simpl.
    by apply number_of_small.
  - unfold pretty, pretty_positive, pretty, pretty_N.
    rewrite decide_False by done.
    change (Js.parseInt ("-" +:+ pretty_N_go (N.pos p) ""))
      with (from_option (λ n, Js.number_of (- n)) Js.NaN
              (Js.digits None (pretty_N_go (N.pos p) ""))).
    rewrite digits_pretty_N_go by done. simpl.
    by apply number_of_small.
Qed.

Lemma parseInt_key (k : int4) : Js.parseInt (Js.toString k) = Js.Int k.
Proof.
  apply parseInt_pretty. pose proof (int4_in_range k) as Hk.
  unfold int4_range in Hk. lia.
Qed.

(** X4. Reading back a key that was written as a decimal string gives the
    key: [parseInt(k.toString(), 10)] is [k] for every key [k] of the 32-bit
    range, negative ones included. *)
Theorem parseInt_toString (k : int4) :
  Js.parseInt (Js.toString k) = Js.Int k.
Proof. apply parseInt_key. Qed.

(** ** Tables that keep their constraints *)

Lemma wf_db_update (f : User → User) (db : Database) :
  (∀ u, id (f u) = id u ∧ email (f u) = email u) →
  wf_db db → wf_db (mkDatabase (f <$> rows db) (next_id db)).
Proof.
  intros Hf (Hid & Hmail & Hlt). unfold wf_db. simpl.
  rewrite <- !list_fmap_compose.
  rewrite (list_fmap_ext (id ∘ f) id (rows db))
    by (intros ? u _; apply (Hf u)).
  rewrite (list_fmap_ext (email ∘ f) email (rows db))
    by (intros ? u _; apply (Hf u)).
  split_and!; [done|done|].
  apply Forall_fmap. eapply Forall_impl; [exact Hlt|].
  intros u Hu. simpl. by rewrite (proj1 (Hf u)).
Qed.

Lemma wf_db_filter (P : User → Prop) `{∀ u, Decision (P u)} (db : Database) :
  wf_db db → wf_db (mkDatabase (filter P (rows db)) (next_id db)).
Proof.
  intros (Hid & Hmail & Hlt). unfold wf_db. simpl. split_and!.
  - eapply sublist_NoDup; [exact Hid|].
    apply fmap_sublist, sublist_filter.
  - eapply sublist_NoDup; [exact Hmail|].
    apply fmap_sublist, sublist_filter.
  - rewrite Forall_forall in Hlt |- *.
    intros u [_ Hu]%list_elem_of_filter. by apply Hlt.
Qed.

Lemma wf_db_sample : wf_db Sample.db.
Proof.
  unfold wf_db. split_and!; apply (bool_decide_unpack _); vm_compute; exact I.
Defined.

(** ** More on [register] *)

Section RegisterMore.
Context {lib : JwtLib} {drv : Driver}.

#[local] Abbreviation new_row k input env :=
  (mkUser k (RegisterInput.email input)
          (hashPassword (RegisterInput.password input) env)
          (RegisterInput.name input)
          (Js.toLowerCase (UserRole_name (RegisterInput.role input)))
          (RegisterInput.phone input) false (Some []) None None
          (now env) (now env)).

Lemma filter_email_present (e : string) (l : list User) :
  e ∈ email <$> l → filter (λ u, email u = e) l ≠ [].
Proof.
  intros (u & -> & Hu)%list_elem_of_fmap Hnil.
  assert (Hin : u ∈ filter (λ v, email v = email u) l)
    by (by apply list_elem_of_filter).
  rewrite Hnil in Hin. by apply not_elem_of_nil in Hin.
Qed.

(** X5. [register] with an email that some account already has fails with
    the email-exists error, whatever the context and the requested role, and
    leaves the table as it is. *)
Theorem register_duplicate_email (input : RegisterInput.t)
  (context : GraphQLContext) (env : Env) (db : Database) :
  RegisterInput.email input ∈ email <$> rows db →
  userMutations.register input context env db = (Throw EMAIL_EXISTS, db).
Proof.
  intros Hin%filter_email_present.
  unfold userMutations.register, bind, Db.select_by_email.
  destruct (filter _ (rows db)); [done|]. reflexivity.
Qed.





End RegisterMore.

Lemma register_duplicate_email_witness :
  userMutations.register (lib := Sample.jwt)
    (RegisterInput.mk "alice@example.com" "other" "Alice II" ADMIN None)
    Sample.anonymous Sample.env Sample.db
  = (Throw EMAIL_EXISTS, Sample.db).
Proof.
  apply (register_duplicate_email (lib := Sample.jwt)
           (RegisterInput.mk "alice@example.com" "other" "Alice II" ADMIN
                             None)).
  apply (bool_decide_unpack _). vm_compute. exact I.
Defined.


Lemma register_preserves_wf_witness :
  wf_db (userMutations.register (lib := Sample.jwt)
           (RegisterInput.mk "dave@example.com" "pw" "Dave" CONTRACTOR None)
           Sample.anonymous Sample.env Sample.db).2.
Proof.
  apply (register_preserves_wf (lib := Sample.jwt)
           (RegisterInput.mk "dave@example.com" "pw" "Dave" CONTRACTOR None)
           Sample.anonymous Sample.env Sample.db _
           (userMutations.register (lib := Sample.jwt)
              (RegisterInput.mk "dave@example.com" "pw" "Dave" CONTRACTOR
                                None)
              Sample.anonymous Sample.env Sample.db).1).
  - exact wf_db_sample.
  - reflexivity.
Defined.


(** ** More on [login] *)

Section LoginMore.
Context {lib : JwtLib} {drv : Driver}.

#[local] Abbreviation matching input db :=
  (filter (λ u, email u = LoginInput.email input) (rows db)).

(** The four ways [login] can go, by the first account found for the email. *)
Lemma login_cases (input : LoginInput.t) (context : GraphQLContext)
  (env : Env) (db : Database) :
  (matching input db = []
   ∧ userMutations.login input context env db = (Throw INVALID_LOGIN, db))
  ∨ (∃ u rest, matching input db = u :: rest ∧ isSuspend u = true
     ∧ userMutations.login input context env db = (Throw SUSPENDED, db))
  ∨ (∃ u rest, matching input db = u :: rest ∧ isSuspend u = false
     ∧ comparePassword (LoginInput.password input) (password u) = false
     ∧ userMutations.login input context env db = (Throw INVALID_LOGIN, db))
  ∨ (∃ u rest out db', matching input db = u :: rest ∧ isSuspend u = false
     ∧ comparePassword (LoginInput.password input) (password u) = true
     ∧ userMutations.login input context env db = (Ok out, db')
     ∧ db' = mkDatabase
         ((λ v, if Db.eq_id (Js.Int (id u)) v
                then assign
                       (userMutations.store_token
                          (default [] (refreshTokens u)
                             ++ [(signRefreshToken (payload_of u) env).2]))
                       (now env) v
                else v) <$> rows db)
         (next_id db)).
Proof.
  destruct (matching input db) as [|u rest] eqn:Hm.
  { left. split; [done|]. by apply login_no_account. }
  right. destruct (isSuspend u) eqn:Hs.
  { left. exists u, rest. split_and!; [done..|]. by eapply login_suspended. }
  right.
  destruct (comparePassword (LoginInput.password input) (password u)) eqn:Hp.
  - right. eexists u, rest, _, _. split_and!; [done..| |reflexivity].
    by eapply login_accepted.
  - left. exists u, rest. split_and!; [done..|].
    by eapply login_wrong_password.
Qed.


(** X9. [login] succeeds exactly when the first account found for the email
    is not suspended and the password verifies against its stored hash; the
    access token is then signed for that account's key as a decimal string,
    its email and its role. *)
Theorem login_succeeds_iff (input : LoginInput.t) (context : GraphQLContext)
  (env : Env) (db : Database) :
  ((∃ out db', userMutations.login input context env db = (Ok out, db'))
   ↔ ∃ u rest, matching input db = u :: rest ∧ isSuspend u = false
       ∧ comparePassword (LoginInput.password input) (password u) = true)
  ∧ (∀ out db' u rest,
       userMutations.login input context env db = (Ok out, db') →
       matching input db = u :: rest →
       AuthPayload.accessToken out =
         signAccessToken
           (Auth.mk (Js.toString (id u)) (email u) (role u)) env
       ∧ AuthPayload.refreshToken out =
           (signRefreshToken
              (Auth.mk (Js.toString (id u)) (email u) (role u)) env).1).
Proof.
  split.
  - split.
    + intros (out & db' & Hlogin).
      destruct (login_cases input context env db)
        as [[_ H]|[(u & rest & _ & _ & H)|[(u & rest & _ & _ & _ & H)
            |(u & rest & out2 & db2 & Hm & Hs & Hp & _)]]];
        [rewrite H in Hlogin; discriminate..|eauto].
    + intros (u & rest & Hm & Hs & Hp).
      eexists _, _. by eapply login_accepted.
  - intros out db' u rest Hlogin Hm.
    destruct (login_cases input context env db)
      as [[_ H]|[(u' & rest' & _ & _ & H)|[(u' & rest' & _ & _ & _ & H)
          |(u' & rest' & out2 & db2 & Hm' & Hs & Hp & _)]]];
      [rewrite H in Hlogin; discriminate..|].
    rewrite Hm in Hm'. injection Hm' as <- <-.
    rewrite (login_accepted _ _ _ _ _ _ Hm Hs Hp) in Hlogin.
    by injection Hlogin as <- _.
Qed.

(** X10. [login] keeps the constraints of the table: keys and emails stay
    unique and below the identity sequence, whether it succeeds or fails. *)
Theorem login_preserves_wf (input : LoginInput.t) (context : GraphQLContext)
  (env : Env) (db db' : Database) (r : Result AuthPayload.t) :
  wf_db db →
  userMutations.login input context env db = (r, db') →
  wf_db db'.
Proof.
  intros Hwf Hlogin.
  destruct (login_cases input context env db)
    as [[_ H]|[(u & rest & _ & _ & H)|[(u & rest & _ & _ & _ & H)
        |(u & rest & out & db2 & _ & _ & _ & H & ->)]]];
    rewrite H in Hlogin; injection Hlogin as _ <-; try done.
  apply wf_db_update; [|done].
  intros v. simpl. by case_bool_decide.
Qed.

End LoginMore.


Lemma login_preserves_wf_witness : wf_db Sample.db_after.
Proof.
  apply (login_preserves_wf (lib := Sample.jwt) (drv := Sample.driver)
           Sample.alice_login Sample.anonymous Sample.env Sample.db
           Sample.db_after (Ok Sample.alice_session)).
  - exact wf_db_sample.
  - reflexivity.
Defined.

(** ** [updateUser] and [deleteUser] *)



Lemma existsb_match (u : User) (l : list User) :
  u ∈ l → existsb (Db.eq_id (Js.Int (id u))) l = true.
Proof.
  intros Hin. apply existsb_exists. exists u.
  split; [by apply list_elem_of_In|]. simpl. by apply bool_decide_eq_true_2.
Qed.

Lemma filter_no_match (n : Z) (l : list User) :
  (∀ u, u ∈ l → int4_val (id u) ≠ n) →
  filter (λ u, Db.eq_id (Js.Int n) u = false) l = l.
Proof.
  intros Hall. induction l as [|v l IH]; [done|].
  rewrite filter_cons_True.
  - f_equal. apply IH. intros u Hu. apply Hall. by right.
  - simpl. apply bool_decide_eq_false_2, Hall. left.
Qed.

Lemma update_other_rows (k : int4) (f : User → User) (l : list User) :
  (∀ v, id (f v) = id v) →
  filter (λ v, id v ≠ k)
         ((λ v, if Db.eq_id (Js.Int k) v then f v else v) <$> l)
  = filter (λ v, id v ≠ k) l.
Proof.
  intros Hf. induction l as [|v l IH]; [done|].
  rewrite fmap_cons.
  change (Db.eq_id (Js.Int k) v)
    with (bool_decide (int4_val (id v) = int4_val k)).
  destruct (decide (id v = k)) as [Hv|Hv].
  - rewrite bool_decide_eq_true_2 by (by rewrite Hv).
    rewrite !filter_cons_False; [exact IH| |]; rewrite ?Hf; by intros [].
  - rewrite bool_decide_eq_false_2 by (by intros ?%int4_eq).
    rewrite !filter_cons_True by done. by rewrite IH.
Qed.

Lemma delete_other_rows (k : int4) (l : list User) :
  filter (λ v, id v ≠ k) (filter (λ u, Db.eq_id (Js.Int k) u = false) l)
  = filter (λ v, id v ≠ k) l.
Proof.
  induction l as [|v l IH]; [done|].
  destruct (decide (id v = k)) as [Hv|Hv].
  - rewrite (filter_cons_False (λ u, Db.eq_id (Js.Int k) u = false))
      by (simpl; rewrite bool_decide_eq_true_2; [done|by rewrite Hv]).
    rewrite (filter_cons_False (λ v, id v ≠ k) v l) by (by intros []).
    exact IH.
  - rewrite (filter_cons_True (λ u, Db.eq_id (Js.Int k) u = false))
      by (simpl; rewrite bool_decide_eq_false_2;
          [done|by intros ?%int4_eq]).
    rewrite !filter_cons_True by done. by rewrite IH.
Qed.

Section MutationProperties.
Context {lib : JwtLib} {drv : Driver}.

#[local] Abbreviation NOT_FOUND := (GraphQLError "User not found" None).

(** An update either is refused and leaves the table, or rewrites the rows
    with the key. *)
Lemma update_by_id_cases (x : Js.Number) (a : Assignment) (t : Z)
  (db : Database) :
  Db.update_by_id x a t db = (Throw DriverError, db)
  ∨ Db.update_by_id x a t db =
      (Ok tt,
       mkDatabase ((λ u, if Db.eq_id x u then assign a t u else u) <$> rows db)
                  (next_id db)).
Proof.
  unfold Db.update_by_id, Db.key_param, bind, ret, throw.
  destruct x as [|n|]; [destruct NaN_rejected|case_bool_decide|];
    try (by left); cbv zeta;
    destruct (negb (fits a) && _); try (by left);
    destruct (null_name a && _); (by left) || (by right).
Qed.



Lemma deleteUser_run (idarg : string) (context : GraphQLContext)
  (db : Database) (n : Z) (cu : Auth.user) :
  Js.parseInt idarg = Js.Int n →
  int4_range n →
  requireOwnership context idarg = Ok cu →
  userMutations.deleteUser idarg context db =
  (Ok (mkSuccess true "User deleted successfully"),
   mkDatabase (filter (λ u, Db.eq_id (Js.Int n) u = false) (rows db))
              (next_id db)).
Proof.
  intros Hn Hr Hg. unfold userMutations.deleteUser, bind, lift.
  rewrite Hn, Hg. unfold Db.delete_by_id, Db.key_param, bind, ret.
  by rewrite (bool_decide_eq_true_2 _ Hr).
Qed.

Lemma mutations_guarded_aux (idarg : string) (input : UpdateUserInput.t)
  (context : GraphQLContext) (env : Env) (db : Database) (e : Error) :
  requireOwnership context idarg = Throw e →
  userMutations.updateUser idarg input context env db = (Throw e, db)
  ∧ userMutations.deleteUser idarg context db = (Throw e, db).
Proof.
  intros Hg.
  unfold userMutations.updateUser, userMutations.deleteUser, bind, lift.
  by rewrite Hg.
Qed.

(** X12. [updateUser] and [deleteUser] issue no statement before the
    ownership guard has passed: when the guard throws, each throws the
    guard's error and leaves the table as it is. *)
Theorem mutations_guarded (idarg : string) (input : UpdateUserInput.t)
  (context : GraphQLContext) (env : Env) (db : Database) (e : Error) :
  requireOwnership context idarg = Throw e →
  userMutations.updateUser idarg input context env db = (Throw e, db)
  ∧ userMutations.deleteUser idarg context db = (Throw e, db).
Proof. apply mutations_guarded_aux. Qed.



(** X15. A caller who is not an admin and whose identity carries the key [k]
    as a decimal string, as [login] signs it, can only change the account
    with key [k]: if [updateUser] or [deleteUser] succeeds, the id argument
    is that string and every row with another key is still in the table,
    unchanged and at the same position among them. *)
Theorem non_admin_touches_own_row (idarg : string)
  (input : UpdateUserInput.t) (context : GraphQLContext) (env : Env)
  (db : Database) (cu : Auth.user) (k : int4) :
  user context = Some cu →
  Auth.userId cu = Js.toString k →
  Auth.role cu ≠ "admin" →
  (∀ o db', userMutations.updateUser idarg input context env db = (Ok o, db')
            → idarg = Js.toString k
              ∧ filter (λ v, id v ≠ k) (rows db')
                = filter (λ v, id v ≠ k) (rows db))
  ∧ (∀ r db', userMutations.deleteUser idarg context db = (Ok r, db')
              → idarg = Js.toString k
                ∧ filter (λ v, id v ≠ k) (rows db')
                  = filter (λ v, id v ≠ k) (rows db)).
Proof.
  intros Hu Hid Hrole.
  destruct (requireOwnership context idarg) as [cu'|e] eqn:Hg.
  2: { destruct (mutations_guarded_aux idarg input context env db e Hg)
         as [-> ->]. split; intros; discriminate. }
  assert (Hidarg : idarg = Js.toString k).
  { unfold requireOwnership, requireAuth in Hg. rewrite Hu in Hg.
    simpl in Hg. rewrite (bool_decide_eq_true_2 (_ ≠ "admin")) in Hg by done.
    rewrite andb_true_r in Hg. case_bool_decide as Hne; [done|].
    congruence. }
  assert (Hn : Js.parseInt idarg = Js.Int k)
    by (rewrite Hidarg; apply parseInt_key).
  split.
  - intros o db' Hup. split; [done|].
    unfold userMutations.updateUser, bind, lift in Hup.
    rewrite Hn, Hg in Hup.
    destruct (update_by_id_cases (Js.Int k)
                (userMutations.apply_input input (now env)) (now env) db)
      as [Hthrow|Hok]; rewrite ?Hthrow, ?Hok in Hup; [discriminate|].
    rewrite (select_by_id_number _ _ (int4_in_range _)) in Hup.
    cbn [rows] in Hup.
    assert (Hdb' : rows db' =
      (λ v, if Db.eq_id (Js.Int k) v
            then assign (userMutations.apply_input input (now env))
                        (now env) v
            else v) <$> rows db)
      by (destruct (filter _ _); by injection Hup as _ <-).
    rewrite Hdb'. by apply update_other_rows.
  - intros r db' Hdel. split; [done|].
    rewrite (deleteUser_run _ _ _ _ _ Hn (int4_in_range _) Hg) in Hdel.
    injection Hdel as _ <-. apply delete_other_rows.
Qed.

End MutationProperties.

Section DeleteAndQueries.
Context {lib : JwtLib} {drv : Driver}.

(** X16. When the guard passes and the id parses to an integer within the
    range of the key, [deleteUser] reports success and removes exactly the
    rows with that key: the accounts left are those with another key, and
    the identity sequence stays where it was.  It reports success also when
    no account has that key, and the table is then as before. *)
Theorem deleteUser_removes (idarg : string) (context : GraphQLContext)
  (db : Database) (cu : Auth.user) (n : Z) :
  Js.parseInt idarg = Js.Int n →
  int4_range n →
  requireOwnership context idarg = Ok cu →
  ∃ db',
    userMutations.deleteUser idarg context db =
      (Ok (mkSuccess true "User deleted successfully"), db')
    ∧ (∀ v, v ∈ rows db' ↔ v ∈ rows db ∧ int4_val (id v) ≠ n)
    ∧ next_id db' = next_id db
    ∧ ((∀ u, u ∈ rows db → int4_val (id u) ≠ n) → db' = db).
Proof.
  intros Hn Hr Hg. eexists.
  split; [exact (deleteUser_run _ _ _ n cu Hn Hr Hg)|].
  cbn [rows next_id].
  split_and!; [|done|].
  - intros v. rewrite list_elem_of_filter. simpl.
    rewrite bool_decide_eq_false. tauto.
  - intros Hnone. rewrite (filter_no_match _ _ Hnone). by destruct db.
Qed.

(** X17. After a [deleteUser] that passed its guard, with an id that parses
    to an integer within the range of the key, the user-by-id query for the
    same id returns null, for every caller. *)
Theorem deleteUser_then_user (idarg : string)
  (context context' : GraphQLContext) (db : Database) (cu : Auth.user)
  (n : Z) :
  Js.parseInt idarg = Js.Int n →
  int4_range n →
  requireOwnership context idarg = Ok cu →
  userQueries.user idarg context'
    (userMutations.deleteUser idarg context db).2
  = (Ok None, (userMutations.deleteUser idarg context db).2).
Proof.
  intros Hn Hr Hg. rewrite (deleteUser_run _ _ _ _ _ Hn Hr Hg). cbn [snd].
  unfold userQueries.user, bind. rewrite Hn, (select_by_id_number _ _ Hr).
  cbn [rows].
  rewrite (proj2 (filter_id_none n _)); [done|].
  intros u [Hu _]%list_elem_of_filter. simpl in Hu.
  by apply bool_decide_eq_false_1 in Hu.
Qed.

Lemma queries_keep_table_aux (x : Js.Number) (db : Database) :
  (Db.select_by_id x db).2 = db.
Proof.
  unfold Db.select_by_id, Db.key_param, bind, ret, throw.
  destruct x as [|n|]; [by destruct NaN_rejected|by case_bool_decide|done].
Qed.

(** X18. The queries never write: [users], [user] and [me] leave the table
    as it is, whether they return or throw. *)
Theorem queries_keep_table (idarg : string) (context : GraphQLContext)
  (db : Database) :
  (userQueries.users context db).2 = db
  ∧ (userQueries.user idarg context db).2 = db
  ∧ (userQueries.me context db).2 = db.
Proof.
  assert (Hsel : ∀ x, (Db.select_by_id x db).2 = db).
  { intros x. unfold Db.select_by_id, Db.key_param, bind, ret, throw.
    destruct x as [|n|]; [by destruct NaN_rejected|by case_bool_decide|done]. }
  split_and!.
  - unfold userQueries.users, bind, lift, Db.select_all, ret.
    by destruct (requireAuth context).
  - unfold userQueries.user, bind, ret.
    specialize (Hsel (Js.parseInt idarg)).
    destruct (Db.select_by_id _ db) as [[[|u rest]|e] db1]; by simpl in *.
  - unfold userQueries.me, bind, lift, ret, throw.
    destruct (requireAuth context) as [cu|e]; [|done].
    specialize (Hsel (Js.parseInt (Auth.userId cu))).
    destruct (Db.select_by_id _ db) as [[[|u rest]|e] db1]; by simpl in *.
Qed.

(** X19. [users] asks for an identity and for nothing more: for every
    authenticated caller, whatever the role, it returns every account of the
    table, in table order, each without its password. *)
Theorem users_any_role (context : GraphQLContext) (db : Database)
  (cu : Auth.user) :
  user context = Some cu →
  userQueries.users context db = (Ok (without_password <$> rows db), db).
Proof.
  intros Hu. unfold userQueries.users, bind, lift, requireAuth.
  by rewrite Hu.
Qed.

(** X20. [me] finds the caller's account by the key its identity carries as
    a decimal string: with unique keys it returns that account without its
    password, and when no account has the key any more it throws a plain
    "User not found" error; with no identity it throws the unauthenticated
    error. *)
Theorem me_spec (context : GraphQLContext) (db : Database) (cu : Auth.user)
  (k : int4) :
  Auth.userId cu = Js.toString k →
  (user context = None →
   userQueries.me context db = (Throw UNAUTHENTICATED, db))
  ∧ (user context = Some cu →
     ∀ u, NoDup (id <$> rows db) → u ∈ rows db → id u = k →
          userQueries.me context db = (Ok (without_password u), db))
  ∧ (user context = Some cu →
     (∀ u, u ∈ rows db → id u ≠ k) →
     userQueries.me context db = (Throw (JsError "User not found"), db)).
Proof.
  intros Hk. unfold userQueries.me, bind, lift, requireAuth.
  split_and!.
  - by intros ->.
  - intros -> u Hnd Hin <-. rewrite Hk, parseInt_key.
    rewrite (select_by_id_number _ _ (int4_in_range _)).
    by rewrite (filter_id_unique _ _ Hnd Hin).
  - intros -> Hnone. rewrite Hk, parseInt_key.
    rewrite (select_by_id_number _ _ (int4_in_range _)).
    rewrite (proj2 (filter_id_none k (rows db))); [done|].
    intros u Hu Heq%int4_eq. by apply (Hnone u).
Qed.

(** X21. [updateUser] and [deleteUser] keep the constraints of the table:
    keys and emails stay unique and keys stay below the identity sequence,
    whatever the arguments and the outcome. *)
Theorem mutations_preserve_wf (idarg : string) (input : UpdateUserInput.t)
  (context : GraphQLContext) (env : Env) (db : Database) :
  wf_db db →
  wf_db (userMutations.updateUser idarg input context env db).2
  ∧ wf_db (userMutations.deleteUser idarg context db).2.
Proof.
  intros Hwf.
  unfold userMutations.updateUser, userMutations.deleteUser, bind, lift.
  destruct (requireOwnership context idarg) as [cu|e]; [|done].
  split.
  - destruct (update_by_id_cases (Js.parseInt idarg)
                (userMutations.apply_input input (now env)) (now env) db)
      as [-> | ->]; [done|].
    pose proof (queries_keep_table_aux (Js.parseInt idarg)
      (mkDatabase
         ((λ u, if Db.eq_id (Js.parseInt idarg) u
                then assign (userMutations.apply_input input (now env))
                            (now env) u
                else u) <$> rows db) (next_id db))) as Hsel.
    destruct (Db.select_by_id _ _) as [[[|u rest]|e] db1];
      cbn [snd] in Hsel |- *; subst db1;
      (apply wf_db_update; [|done]; intros v; simpl;
       by destruct (Db.eq_id _ v)).
  - unfold Db.delete_by_id, Db.key_param, bind, ret, throw.
    destruct (Js.parseInt idarg) as [|n|];
      [destruct NaN_rejected|case_bool_decide|]; try done;
      cbn [snd]; by apply wf_db_filter.
Qed.

End DeleteAndQueries.

(** ** The further properties on the sample table *)

Lemma mutations_guarded_witness :
  userMutations.updateUser (drv := Sample.driver) "2" Sample.rename
    Sample.alice_context Sample.env Sample.db
  = (Throw OWN_RESOURCES, Sample.db)
  ∧ userMutations.deleteUser (drv := Sample.driver) "2"
      Sample.alice_context Sample.db
    = (Throw OWN_RESOURCES, Sample.db).
Proof.
  apply (mutations_guarded (drv := Sample.driver) "2" Sample.rename
           Sample.alice_context Sample.env Sample.db OWN_RESOURCES).
  reflexivity.
Defined.



Lemma non_admin_touches_own_row_witness :
  (∀ o db',
     userMutations.updateUser (drv := Sample.driver) "1" Sample.rename
       Sample.alice_context Sample.env Sample.db = (Ok o, db')
     → "1" = Js.toString Sample.key1
       ∧ filter (λ v, id v ≠ Sample.key1) (rows db')
         = filter (λ v, id v ≠ Sample.key1) (rows Sample.db))
  ∧ (∀ r db',
       userMutations.deleteUser (drv := Sample.driver) "1"
         Sample.alice_context Sample.db = (Ok r, db')
       → "1" = Js.toString Sample.key1
         ∧ filter (λ v, id v ≠ Sample.key1) (rows db')
           = filter (λ v, id v ≠ Sample.key1) (rows Sample.db)).
Proof.
  apply (non_admin_touches_own_row (drv := Sample.driver) "1" Sample.rename
           Sample.alice_context Sample.env Sample.db
           (Auth.mk "1" "alice@example.com" "customer") Sample.key1).
  - reflexivity.
  - reflexivity.
  - apply (bool_decide_unpack _). vm_compute. exact I.
Defined.

Lemma deleteUser_removes_witness :
  ∃ db',
    userMutations.deleteUser (drv := Sample.driver) "2"
      Sample.admin_context Sample.db =
      (Ok (mkSuccess true "User deleted successfully"), db')
    ∧ (∀ v, v ∈ rows db' ↔ v ∈ rows Sample.db ∧ int4_val (id v) ≠ 2)
    ∧ next_id db' = next_id Sample.db
    ∧ ((∀ u, u ∈ rows Sample.db → int4_val (id u) ≠ 2) → db' = Sample.db).
Proof.
  apply (deleteUser_removes (drv := Sample.driver) "2" Sample.admin_context
           Sample.db (Auth.mk "9" "root@example.com" "admin") 2).
  - reflexivity.
  - unfold int4_range. lia.
  - reflexivity.
Defined.

Lemma deleteUser_then_user_witness :
  userQueries.user (drv := Sample.driver) "2" Sample.anonymous
    (userMutations.deleteUser (drv := Sample.driver) "2"
       Sample.admin_context Sample.db).2
  = (Ok None,
     (userMutations.deleteUser (drv := Sample.driver) "2"
        Sample.admin_context Sample.db).2).
Proof.
  apply (deleteUser_then_user (drv := Sample.driver) "2"
           Sample.admin_context Sample.anonymous Sample.db
           (Auth.mk "9" "root@example.com" "admin") 2).
  - reflexivity.
  - unfold int4_range. lia.
  - reflexivity.
Defined.

Lemma users_any_role_witness :
  userQueries.users Sample.alice_context Sample.db
  = (Ok (without_password <$> rows Sample.db), Sample.db).
Proof.
  apply (users_any_role Sample.alice_context Sample.db
           (Auth.mk "1" "alice@example.com" "customer")).
  reflexivity.
Defined.

Lemma me_spec_witness :
  (user Sample.alice_context = None →
   userQueries.me (drv := Sample.driver) Sample.alice_context Sample.db
   = (Throw UNAUTHENTICATED, Sample.db))
  ∧ (user Sample.alice_context
     = Some (Auth.mk "1" "alice@example.com" "customer") →
     ∀ u, NoDup (id <$> rows Sample.db) → u ∈ rows Sample.db →
          id u = Sample.key1 →
          userQueries.me (drv := Sample.driver) Sample.alice_context
            Sample.db = (Ok (without_password u), Sample.db))
  ∧ (user Sample.alice_context
     = Some (Auth.mk "1" "alice@example.com" "customer") →
     (∀ u, u ∈ rows Sample.db → id u ≠ Sample.key1) →
     userQueries.me (drv := Sample.driver) Sample.alice_context Sample.db
     = (Throw (JsError "User not found"), Sample.db)).
Proof.
  apply (me_spec (drv := Sample.driver) Sample.alice_context Sample.db
           (Auth.mk "1" "alice@example.com" "customer") Sample.key1).
  reflexivity.
Defined.

Lemma mutations_preserve_wf_witness :
  wf_db (userMutations.updateUser (drv := Sample.driver) "1" Sample.rename
           Sample.alice_context Sample.env Sample.db).2
  ∧ wf_db (userMutations.deleteUser (drv := Sample.driver) "1"
             Sample.alice_context Sample.db).2.
Proof.
  apply (mutations_preserve_wf (drv := Sample.driver) "1" Sample.rename
           Sample.alice_context Sample.env Sample.db).
  exact wf_db_sample.
Defined.

(** ** From the request to the resolver *)

Section EndToEnd.
Context {lib : JwtLib} {drv : Driver}.

Lemma createContext_cases (authorization : option string) (env : Env) :
  (createContext authorization env = Ok (mkContext None)
   ∧ ∀ token u, authorization = Some ("Bearer " +:+ token) →
                verifyAccessToken token env ≠ Ok u)
  ∨ (∃ token u, authorization = Some ("Bearer " +:+ token)
       ∧ verifyAccessToken token env = Ok u
       ∧ createContext authorization env = Ok (mkContext (Some u))).
Proof.
  unfold createContext.
  destruct authorization as [authHeader|]; [|left; by split].
  destruct (Js.startsWith "Bearer " authHeader) eqn:Hpre.
  - apply startsWith_app in Hpre as [token ->].
    change 7%nat with (String.length "Bearer ").
    rewrite substring_app.
    destruct (verifyAccessToken token env) as [decoded|e] eqn:Hv; simpl.
    + right. exists token, decoded. by destruct decoded.
    + left. split; [done|]. intros token' u Heq.
      apply (inj Some) in Heq.
      apply (inj (String.append "Bearer ")) in Heq. subst token'.
      by rewrite Hv.
  - left. split; [done|]. intros token u [= ->].
    assert (Js.startsWith "Bearer " ("Bearer " +:+ token) = true)
      by (apply startsWith_app; eauto).
    congruence.
Qed.

(** X22. A request whose Authorization header is absent, is not a bearer
    header, or carries a token that does not verify is served with the
    anonymous context, and with it [users], [me], [updateUser] and
    [deleteUser] all throw the unauthenticated error and leave the table as
    it is. *)
Theorem unauthenticated_request_rejected (authorization : option string)
  (env : Env) (db : Database) (idarg : string) (input : UpdateUserInput.t) :
  (∀ token u, authorization = Some ("Bearer " +:+ token) →
              verifyAccessToken token env ≠ Ok u) →
  ∃ context,
    createContext authorization env = Ok context
    ∧ userQueries.users context db = (Throw UNAUTHENTICATED, db)
    ∧ userQueries.me context db = (Throw UNAUTHENTICATED, db)
    ∧ userMutations.updateUser idarg input context env db
      = (Throw UNAUTHENTICATED, db)
    ∧ userMutations.deleteUser idarg context db
      = (Throw UNAUTHENTICATED, db).
Proof.
  intros Hbad.
  destruct (createContext_cases authorization env)
    as [[Hctx _]|(token & u & Hh & Hv & _)].
  - exists (mkContext None). by split_and!.
  - by destruct (Hbad token u Hh).
Qed.

(** X23. The access token that [login] returns opens the caller's own
    account: if the library verifies the token it signed for the account's
    payload, then the context built from [Bearer ] and that token carries the
    account's key, email and role, and [me] on the table after the login
    returns the account, with its email and without its password. *)
Theorem login_then_me (input : LoginInput.t) (context : GraphQLContext)
  (env env' : Env) (db db' : Database) (out : AuthPayload.t) (u : User)
  (rest : list User) :
  NoDup (id <$> rows db) →
  filter (λ v, email v = LoginInput.email input) (rows db) = u :: rest →
  userMutations.login input context env db = (Ok out, db') →
  verifyAccessToken (signAccessToken (payload_of u) env) env'
  = Ok (payload_of u) →
  ∃ o,
    createContext (Some ("Bearer " +:+ AuthPayload.accessToken out)) env'
    = Ok (mkContext (Some (payload_of u)))
    ∧ userQueries.me (mkContext (Some (payload_of u))) db' = (Ok o, db')
    ∧ o !! "id" = Some (VNum (id u))
    ∧ o !! "email" = Some (VStr (LoginInput.email input))
    ∧ o !! "password" = None.
Proof.
  intros Hnd Hm Hlogin Hverify.
  destruct (login_cases input context env db)
    as [[_ H]|[(u' & rest' & _ & _ & H)|[(u' & rest' & _ & _ & _ & H)
        |(u' & rest' & out2 & db2 & Hm' & Hs & Hp & _)]]];
    [rewrite H in Hlogin; discriminate..|].
  rewrite Hm in Hm'. injection Hm' as <- <-.
  rewrite (login_accepted _ _ _ _ _ _ Hm Hs Hp) in Hlogin.
  injection Hlogin as <- <-. cbn [AuthPayload.accessToken].
  pose proof (filter_email_head _ _ _ _ Hm) as [Hin Hmail].
  apply list_elem_of_split in Hin as (l1 & l2 & Hrows).
  rewrite Hrows in Hnd |- *.
  rewrite (update_one _ l1 l2 u Hnd).
  set (u' := assign _ _ u).
  assert (Hid' : id u' = id u) by done.
  exists (without_password u'). split_and!.
  - unfold createContext.
    rewrite (proj2 (startsWith_app "Bearer " _)) by eauto.
    change 7%nat with (String.length "Bearer ").
    by rewrite substring_app, Hverify.
  - unfold userQueries.me, bind, lift, requireAuth. cbn [user].
    change (Auth.userId (payload_of u)) with (Js.toString (id u)).
    rewrite parseInt_key, (select_by_id_number _ _ (int4_in_range _)).
    cbn [rows]. rewrite <- Hid'. rewrite filter_id_unique; [done| |].
    + by rewrite fmap_app, fmap_cons, Hid', <- fmap_cons, <- fmap_app.
    + apply elem_of_app. right. left.
  - unfold without_password, row_object. by simplify_map_eq.
  - unfold without_password, row_object. rewrite <- Hmail. by simplify_map_eq.
  - apply without_password_hidden.
Qed.

End EndToEnd.

Lemma unauthenticated_request_rejected_witness :
  ∃ context,
    createContext (lib := Sample.jwt) (Some "Bearer forged") Sample.env
    = Ok context
    ∧ userQueries.users context Sample.db
      = (Throw UNAUTHENTICATED, Sample.db)
    ∧ userQueries.me (drv := Sample.driver) context Sample.db
      = (Throw UNAUTHENTICATED, Sample.db)
    ∧ userMutations.updateUser (drv := Sample.driver) "1" Sample.rename
        context Sample.env Sample.db
      = (Throw UNAUTHENTICATED, Sample.db)
    ∧ userMutations.deleteUser (drv := Sample.driver) "1" context Sample.db
      = (Throw UNAUTHENTICATED, Sample.db).
Proof.
  apply (unauthenticated_request_rejected (lib := Sample.jwt)
           (drv := Sample.driver) (Some "Bearer forged") Sample.env
           Sample.db "1" Sample.rename).
  intros token u Heq. apply (inj Some) in Heq.
  apply (inj (String.append "Bearer ") "forged" token) in Heq. subst token.
  discriminate.
Defined.

Lemma login_then_me_witness :
  ∃ o,
    createContext (lib := Sample.jwt_round_trip)
      (Some ("Bearer " +:+ AuthPayload.accessToken Sample.alice_session))
      (mkEnv 400 9)
    = Ok (mkContext (Some (payload_of Sample.alice)))
    ∧ userQueries.me (drv := Sample.driver)
        (mkContext (Some (payload_of Sample.alice))) Sample.db_after
      = (Ok o, Sample.db_after)
    ∧ o !! "id" = Some (VNum (id Sample.alice))
    ∧ o !! "email" = Some (VStr (LoginInput.email Sample.alice_login))
    ∧ o !! "password" = None.
Proof.
  apply (login_then_me (lib := Sample.jwt_round_trip) (drv := Sample.driver)
           Sample.alice_login Sample.anonymous Sample.env (mkEnv 400 9)
           Sample.db Sample.db_after Sample.alice_session Sample.alice []).
  - apply (bool_decide_unpack _). vm_compute. exact I.
  - reflexivity.
  - reflexivity.
  - reflexivity.
Defined.
